(** * Anomaly-detection route of Chapman's Peek "Oracle"

    A shallow embedding of the statistical core of the [/api/anomaly] route
    (the TypeScript handler [POST] with its four detectors and two statistics
    helpers) together with the properties the specification states about it.

    Numbers are JavaScript numbers, i.e. IEEE-754 binary64 values: they are
    modelled by Rocq's primitive floats, whose operations are the binary64
    ones (round to nearest, ties to even), so [NaN], the infinities and the
    rounding of sums are those of the running code.  *)

From Stdlib Require Import Floats ZArith List String Bool Lia Sorted.
From Stdlib Require Uint63.
From Stdlib Require Import Permutation.
Import ListNotations.

Local Open Scope float_scope.

(** ** The JavaScript runtime operations the route relies on *)

Module Js.

(** A field of a parsed JSON body that the interface [PriceData] declares as
    a number: it holds nothing (the property is absent, reading it gives
    [undefined]), [null], or a number. *)
Inductive Value : Type :=
| Undefined
| Null
| Num (f : float).

(** [ToNumber] of the language: every arithmetic operator, comparison and
    [Math] function the route applies to a field coerces it this way. *)
Definition ToNumber (v : Value) : float :=
  match v with
  | Undefined => nan
  | Null => 0
  | Num f => f
  end.

(** [x > y] on numbers. *)
Definition gt (x y : float) : bool := y <? x.

(** [ToBoolean] on a number is false for [+0], [-0] and [NaN]. *)
Definition falsy (x : float) : bool := (x =? 0) || is_nan x.

(** [x || d] for a number [x]. *)
Definition or_else (x d : float) : float := if falsy x then d else x.

(** [arr.length] as a number. *)
Definition length {A : Type} (arr : list A) : float :=
  of_uint63 (Uint63.of_Z (Z.of_nat (List.length arr))).

(** [Math.pow(x, 2)], taken as the rounded product [x * x]. *)
Definition pow2 (x : float) : float := x * x.

Definition is_neg_zero (x : float) : bool :=
  match classify x with NZero => true | _ => false end.

Definition is_pos_zero (x : float) : bool :=
  match classify x with PZero => true | _ => false end.

(** [Math.min(...arr)]: [NaN] as soon as one argument is [NaN]; otherwise
    the running lowest value starts at [+Infinity], and [-0] counts as
    lower than [+0].  (The array is taken to fit in one call: an engine
    refuses a call with more arguments than its stack holds.) *)
Definition min_step (lowest number : float) : float :=
  if is_neg_zero number && is_pos_zero lowest then number
  else if number <? lowest then number
  else lowest.

Definition Math_min (arr : list float) : float :=
  if existsb is_nan arr then nan else fold_left min_step arr infinity.

(** [Math.max(...arr)], symmetrically from [-Infinity]. *)
Definition max_step (highest number : float) : float :=
  if is_pos_zero number && is_neg_zero highest then number
  else if gt number highest then number
  else highest.

Definition Math_max (arr : list float) : float :=
  if existsb is_nan arr then nan else fold_left max_step arr neg_infinity.

(** [arr.sort(cmp)].  The sort of the language is stable, so for a
    consistent comparator its result is the one of a stable insertion
    sort; [after a b] stands for [cmp(a, b) > 0], the only case in which
    [a] is moved behind [b].  For a comparator that is not consistent the
    language leaves the order to the engine; the route has one such case,
    [a - b] on distances of which some but not all are [NaN], where only
    the engine tells the order. *)
Section Sort.
Context {A : Type} (after : A -> A -> bool).

Fixpoint insert (x : A) (sorted : list A) : list A :=
  match sorted with
  | [] => [x]
  | y :: rest => if after x y then y :: insert x rest else x :: y :: rest
  end.

Definition sort (arr : list A) : list A := fold_right insert [] arr.
End Sort.

(** [arr.slice(-n)] for a count [n]: the last [n] elements, the whole
    array when it is shorter, and also the whole array for [n = 0]
    (since [-0] is [0]). *)
Definition slice_last {A : Type} (n : nat) (arr : list A) : list A :=
  match n with
  | O => arr
  | _ => skipn (List.length arr - n) arr
  end.

(** [arr.filter((_, j) => j !== i)]. *)
Fixpoint filter_other {A : Type} (i : nat) (arr : list A) : list A :=
  match arr, i with
  | [], _ => []
  | _ :: rest, O => rest
  | x :: rest, S i' => x :: filter_other i' rest
  end.

(** [arr.map((x, i) => f(x, i))]. *)
Fixpoint mapi_from {A B : Type} (start : nat) (f : A -> nat -> B) (arr : list A) : list B :=
  match arr with
  | [] => []
  | x :: rest => f x start :: mapi_from (S start) f rest
  end.

Definition mapi {A B : Type} (f : A -> nat -> B) (arr : list A) : list B :=
  mapi_from 0 f arr.

End Js.

(** ** Data model *)

(** [AnomalyResult.type], one value per detector. *)
Inductive Kind : Type := zscore | volume_spike | price_deviation | lof.

Inductive Severity : Type := low | medium | high | critical.

(** [PriceData] as it arrives in the request body; [change24h] is never
    read. *)
Record PriceData : Type := mkPriceData {
  pd_timestamp : Js.Value;
  price : Js.Value;
  volume : Js.Value
}.

(** [AnomalyResult] without [message] and [details], which are renderings
    ([toFixed]) of the values kept here. *)
Record AnomalyResult : Type := mkAnomalyResult {
  type : Kind;
  severity : Severity;
  score : float;
  threshold : float;
  timestamp : Z;
  ticker : string
}.

Definition Kind_eqb (a b : Kind) : bool :=
  match a, b with
  | zscore, zscore | volume_spike, volume_spike
  | price_deviation, price_deviation | lof, lof => true
  | _, _ => false
  end.

(** ** Statistical helper functions *)

Definition sum (arr : list float) : float := fold_left PrimFloat.add arr 0.

Definition mean (arr : list float) : float := sum arr / Js.length arr.

Definition standardDeviation (arr : list float) : float :=
  let avg := mean arr in
  let squareDiffs := map (fun value => Js.pow2 (value - avg)) arr in
  PrimFloat.sqrt (mean squareDiffs).

(** ** The four detectors

    Each takes as [now] the reading [Date.now()] gives at the moment the
    detector builds its finding. *)

Definition zscore_severity (absZScore : float) : Severity :=
  if Js.gt absZScore 4 then critical
  else if Js.gt absZScore 3 then high
  else if Js.gt absZScore 2.5 then medium
  else low.

Definition detectZScoreAnomaly (now : Z) (currentPrice : float)
    (historicalPrices : list float) (ticker : string) (threshold : float)
  : option AnomalyResult :=
  if (List.length historicalPrices <? 10)%nat then None else
  let avg := mean historicalPrices in
  let std := standardDeviation historicalPrices in
  if std =? 0 then None else
  let zScore := (currentPrice - avg) / std in
  let absZScore := abs zScore in
  if Js.gt absZScore threshold then
    Some (mkAnomalyResult zscore (zscore_severity absZScore) absZScore threshold now ticker)
  else None.

Definition volume_severity (volumeRatio : float) : Severity :=
  if Js.gt volumeRatio 10 then critical
  else if Js.gt volumeRatio 5 then high
  else if Js.gt volumeRatio 3 then medium
  else low.

Definition detectVolumeSpikeAnomaly (now : Z) (currentVolume : float)
    (historicalVolumes : list float) (ticker : string) (threshold : float)
  : option AnomalyResult :=
  if (List.length historicalVolumes <? 10)%nat then None else
  let avgVolume := mean historicalVolumes in
  let volumeRatio := currentVolume / avgVolume in
  if Js.gt volumeRatio threshold then
    Some (mkAnomalyResult volume_spike (volume_severity volumeRatio) volumeRatio threshold now ticker)
  else None.

Definition deviation_severity (absDeviation : float) : Severity :=
  if Js.gt absDeviation 15 then critical
  else if Js.gt absDeviation 10 then high
  else if Js.gt absDeviation 5 then medium
  else low.

Definition detectPriceDeviation (now : Z) (currentPrice : float)
    (prices : list float) (ticker : string) (maWindow : nat) (threshold : float)
  : option AnomalyResult :=
  if (List.length prices <? maWindow)%nat then None else
  let recentPrices := Js.slice_last maWindow prices in
  let movingAverage := mean recentPrices in
  let deviation := ((currentPrice - movingAverage) / movingAverage) * 100 in
  let absDeviation := abs deviation in
  if Js.gt absDeviation threshold then
    Some (mkAnomalyResult price_deviation (deviation_severity absDeviation) absDeviation threshold now ticker)
  else None.

Definition lof_severity (lofScore : float) : Severity :=
  if Js.gt lofScore 3 then critical
  else if Js.gt lofScore 2 then high
  else if Js.gt lofScore 1.5 then medium
  else low.

(** Euclidean distance of two normalised points. *)
Definition distance (a b : float * float) : float :=
  PrimFloat.sqrt (Js.pow2 (fst a - fst b) + Js.pow2 (snd a - snd b)).

Definition by_difference (a b : float) : bool := Js.gt (a - b) 0.

(** The two divisors of the normalisation and the one of the score, each
    with its [|| 1]. *)
Definition span (lo hi : float) : float := Js.or_else (hi - lo) 1.

Definition normalize (priceMin priceMax volumeMin volumeMax : float)
    (d : float * float) : float * float :=
  ((fst d - priceMin) / span priceMin priceMax,
   (snd d - volumeMin) / span volumeMin volumeMax).

Definition kDistancesOf (k : nat) (normalizedHistorical : list (float * float)) : list float :=
  Js.mapi (fun _ i =>
    let pointDistances :=
      firstn k (Js.sort by_difference
        (map (fun h => distance (nth i normalizedHistorical (nan, nan)) h)
             (Js.filter_other i normalizedHistorical))) in
    mean pointDistances) normalizedHistorical.

(** The score of the LOF detector; a history entry [{price, volume}] is the
    pair of its two numbers. *)
Definition lofScoreOf (currentPrice currentVolume : float)
    (historicalData : list (float * float)) : float :=
  let prices := map fst historicalData in
  let volumes := map snd historicalData in
  let priceMin := Js.Math_min prices in
  let priceMax := Js.Math_max prices in
  let volumeMin := Js.Math_min volumes in
  let volumeMax := Js.Math_max volumes in
  let normalizedCurrent :=
    normalize priceMin priceMax volumeMin volumeMax (currentPrice, currentVolume) in
  let normalizedHistorical :=
    map (normalize priceMin priceMax volumeMin volumeMax) historicalData in
  let k := Nat.min 5 (List.length historicalData - 1) in
  let distances := map (fun h => distance normalizedCurrent h) normalizedHistorical in
  let kDistance := firstn k (Js.sort by_difference distances) in
  let avgKDistance := mean kDistance in
  let historicalKDistances := kDistancesOf k normalizedHistorical in
  let avgHistoricalKDistance := mean historicalKDistances in
  avgKDistance / Js.or_else avgHistoricalKDistance 1.

Definition detectLOFAnomaly (now : Z) (currentPrice currentVolume : float)
    (historicalData : list (float * float)) (ticker : string) (threshold : float)
  : option AnomalyResult :=
  if (List.length historicalData <? 20)%nat then None else
  let lofScore := lofScoreOf currentPrice currentVolume historicalData in
  if Js.gt lofScore threshold then
    Some (mkAnomalyResult lof (lof_severity lofScore) lofScore threshold now ticker)
  else None.

(** ** The route handler *)

Definition severityOrder (s : Severity) : Z :=
  match s with
  | critical => 0
  | high => 1
  | medium => 2
  | low => 3
  end.

(** The comparator of [anomalies.sort]: its result is positive, and [a] goes
    behind [b], exactly when this holds. *)
Definition by_severity (a b : AnomalyResult) : bool :=
  (severityOrder (severity a) - severityOrder (severity b) >? 0)%Z.

(** An entry of the array [historicalData].  Reading [d.price] throws a
    [TypeError] when the entry is [null]; of any other entry it gives the
    property, which is absent on a number, a string or a boolean. *)
Inductive Entry : Type :=
| NullEntry
| Row (d : PriceData).

(** A truthy [historicalData]: an array, or another value (an object, a
    non-empty string, a non-zero number, [true]), which has no method
    [map], so that calling it throws a [TypeError]. *)
Inductive History : Type :=
| NotArray
| ArrayOf (entries : list Entry).

(** The parsed request body.  [None] is a property that is falsy: absent,
    [null], [false] or [0]; a ticker can also be the empty string, which is
    falsy as well.  A truthy [currentData] is read through its two
    properties, which are absent when it is no object. *)
Record RequestBody : Type := mkRequestBody {
  req_ticker : option string;
  currentData : option PriceData;
  historicalData : option History
}.

Record Summary : Type := mkSummary {
  hasAnomalies : bool;
  highestSeverity : option Severity;   (* [None] is the string 'none' *)
  types : list Kind
}.

Record ResponseBody : Type := mkResponseBody {
  res_ticker : string;
  res_timestamp : Z;
  anomalyCount : nat;
  anomalies : list AnomalyResult;
  summary : Summary
}.

Inductive Response : Type :=
| Ok200 (body : ResponseBody)
| Error400 (error : string)
| Error500 (error : string).

(** Default thresholds of the detectors, used by every call of the route. *)
Definition zscore_threshold : float := 2.5.
Definition volume_threshold : float := 3.
Definition deviation_window : nat := 20.
Definition deviation_threshold : float := 5.
Definition lof_threshold : float := 1.5.

(** [if (r) anomalies.push(r)], with the number of clock readings taken so
    far: a detector reads the clock once, when it returns a finding. *)
Definition push (r : option AnomalyResult) (st : list AnomalyResult * nat)
  : list AnomalyResult * nat :=
  match r with
  | Some a => (fst st ++ [a], S (snd st))
  | None => st
  end.

(** The four detector calls in the order of the handler; [clock n] is what
    the [n]-th call of [Date.now()] returns. *)
Definition collect (clock : nat -> Z) (tk : string) (current : PriceData)
    (history : list PriceData) : list AnomalyResult * nat :=
  let historicalPrices := map (fun d => Js.ToNumber (price d)) history in
  let historicalVolumes := map (fun d => Js.ToNumber (volume d)) history in
  let currentPrice := Js.ToNumber (price current) in
  let currentVolume := Js.ToNumber (volume current) in
  let st := ([], O) in
  let st := push (detectZScoreAnomaly (clock (snd st)) currentPrice
                    historicalPrices tk zscore_threshold) st in
  let st := push (detectVolumeSpikeAnomaly (clock (snd st)) currentVolume
                    historicalVolumes tk volume_threshold) st in
  let st := push (detectPriceDeviation (clock (snd st)) currentPrice
                    historicalPrices tk deviation_window deviation_threshold) st in
  let st := push (detectLOFAnomaly (clock (snd st)) currentPrice currentVolume
                    (map (fun d => (Js.ToNumber (price d), Js.ToNumber (volume d))) history)
                    tk lof_threshold) st in
  st.

(** [anomalies.forEach(a => { if (!typesList.includes(a.type)) typesList.push(a.type) })] *)
Definition includes (l : list Kind) (k : Kind) : bool := existsb (Kind_eqb k) l.

Definition typesOf (l : list AnomalyResult) : list Kind :=
  fold_left (fun typesList a =>
               if includes typesList (type a) then typesList
               else typesList ++ [type a]) l [].

Definition summarize (sorted : list AnomalyResult) : Summary :=
  {| hasAnomalies := (0 <? List.length sorted)%nat;
     highestSeverity := option_map severity (head sorted);
     types := typesOf sorted |}.

(** [historicalData.map(d => d.price)] reads every entry in turn: it
    throws at the first [null] entry, and goes through when there is none,
    in which case [rowsOf] gives the entries read. *)
Fixpoint rowsOf (entries : list Entry) : option (list PriceData) :=
  match entries with
  | [] => Some []
  | NullEntry :: _ => None
  | Row d :: rest => option_map (cons d) (rowsOf rest)
  end.

(** [request] is [None] when the body is not JSON: [request.json()] throws
    and the [catch] answers.  The [catch] also answers when the history
    cannot be read, which happens before any detector is called. *)
Definition POST (clock : nat -> Z) (request : option RequestBody) : Response :=
  match request with
  | None => Error500 "Anomaly detection failed"
  | Some body =>
      match req_ticker body, currentData body, historicalData body with
      | Some tk, Some current, Some history =>
          if (tk =? "")%string then Error400 "Missing required data" else
          match history with
          | NotArray => Error500 "Anomaly detection failed"
          | ArrayOf entries =>
              match rowsOf entries with
              | None => Error500 "Anomaly detection failed"
              | Some rows =>
                  let '(found, readings) := collect clock tk current rows in
                  let sorted := Js.sort by_severity found in
                  Ok200 {| res_ticker := tk;
                           res_timestamp := clock readings;
                           anomalyCount := List.length sorted;
                           anomalies := sorted;
                           summary := summarize sorted |}
              end
          end
      | _, _, _ => Error400 "Missing required data"
      end
  end.

(** * The dashboard that calls the route

    The detection cycle of the dashboard page ([runAnomalyDetection]) and
    the price history it keeps per symbol. *)

(** [[...history, marketInfo.price].slice(-100)]: the price history of a
    symbol after a new ticker message. *)
Definition appendPrice (history : list float) (price : float) : list float :=
  Js.slice_last 100 (history ++ [price]).

(** [if (!history || history.length < 20) continue;] *)
Definition skipped (history : option (list float)) : bool :=
  match history with
  | None => true
  | Some h => (List.length h <? 20)%nat
  end.

(** A number after [JSON.stringify] and [request.json()]: [NaN] and the
    infinities are written as [null], [-0] is written as [0], and any other
    number is read back as it was. *)
Definition overWire (x : float) : Js.Value :=
  if is_finite x then Js.Num (if Js.is_neg_zero x then 0 else x) else Js.Null.

Definition number_of_nat (n : nat) : float :=
  of_uint63 (Uint63.of_Z (Z.of_nat n)).

(** The two fields of [MarketData] that the detection cycle reads. *)
Record MarketData : Type := mkMarketData {
  md_price : float;
  md_volume : float
}.

(** The body [runAnomalyDetection] posts for a symbol; [random i] and
    [now i] are what [Math.random()] and [Date.now()] return for the
    [i]-th entry of the history. *)
Definition detectionRequest (symbol : string) (data : MarketData)
    (history : list float) (random now : nat -> float) : RequestBody :=
  mkRequestBody (Some symbol)
    (Some (mkPriceData Js.Undefined (overWire (md_price data)) (overWire (md_volume data))))
    (Some (ArrayOf (Js.mapi
             (fun price i =>
                Row (mkPriceData
                  (overWire (now i - (Js.length history - number_of_nat i) * 60000))
                  (overWire price)
                  (overWire (md_volume data
                             * (0x1.999999999999ap-1 + random i * 0x1.999999999999ap-2)))))
             history))).

Section Feed.
Context {Anomaly : Type}.

(** [tag a i] is the finding [a] with its [id] added,
    [{...a, id: `${symbol}-${a.type}-${Date.now()}`}], for the [i]-th
    finding of an answer. *)
Variable tag : AnomalyResult -> nat -> Anomaly.

(** The list of findings shown and the counter beside it. *)
Definition Feed : Type := list Anomaly * nat.

(** What the cycle does with the answer of the route: on a 200 answer with
    findings, [[...newAnomalies, ...prev].slice(0, 50)] and
    [prev + result.anomalies.length]. *)
Definition receive (feed : Feed) (r : Response) : Feed :=
  match r with
  | Ok200 body =>
      if (0 <? List.length (anomalies body))%nat
      then (firstn 50 (Js.mapi tag (anomalies body) ++ fst feed),
            (snd feed + List.length (anomalies body))%nat)
      else feed
  | _ => feed
  end.

(** One pass of the cycle for a symbol. *)
Definition detectionCycle (clock : nat -> Z) (symbol : string) (data : MarketData)
    (history : option (list float)) (random now : nat -> float) (feed : Feed) : Feed :=
  match history with
  | Some h =>
      if skipped history then feed
      else receive feed (POST clock (Some (detectionRequest symbol data h random now)))
  | None => feed
  end.
End Feed.

(** * The registration route ([/api/auth/invite])

    The two tables of the route are module-level objects that its handlers
    read and write: they are the store threaded through [POST] and [PUT].
    The string operations of the language ([toUpperCase], [toLowerCase],
    [trim], [length] in UTF-16 units), the signature of the session token
    and the formatting of a new code are taken as they come; [inherited]
    tells the property names every object has from its prototype
    ([constructor], [__proto__], ...), under which a lookup in an empty
    table still finds something. *)

Module Invite.

Record InviteRecord : Type := mkInvite {
  used : bool;
  createdBy : string;
  expiresAt : Z
}.

(** A property of the registration body, which can hold any JSON value.
    [Absent] is a value that is falsy and no string: the property is
    absent, or [null], [false] or [0].  [Text s] is a string, falsy when it
    is empty.  [Other length] is any other value, always truthy: a number,
    [true], an array or an object.  It has none of the methods of a string,
    and [length] is what reading its property [length] gives: nothing for a
    number, the number of its entries for an array. *)
Inductive Field : Type :=
| Absent
| Text (s : string)
| Other (length : Js.Value).

(** The password is stored as it was given. *)
Record UserRecord : Type := mkUser {
  password : Field;
  role : string;
  name : string;
  inviteCode : string
}.

Record Store : Type := mkStore {
  VALID_INVITES : string -> option InviteRecord;
  REGISTERED_USERS : string -> option UserRecord
}.

(** [table[key] = value] *)
Definition assign {V : Type} (table : string -> option V) (key : string) (value : V)
  : string -> option V :=
  fun k => if (k =? key)%string then Some value else table k.

(** The tables as the module is loaded; the three codes expire on
    2025-12-31 (UTC), given in milliseconds. *)
Definition initial : Store :=
  mkStore
    (assign (assign (assign (fun _ => None)
       "ORACLE-2025-ALPHA" (mkInvite false "warren@chapmans.co.za" 1767139200000))
       "SECURITY-360-VIP" (mkInvite false "mike@security360.co.za" 1767139200000))
       "CHAPMANS-BETA-001" (mkInvite false "warren@chapmans.co.za" 1767139200000))
    (fun _ => None).

(** The body of a registration request. *)
Record Registration : Type := mkRegistration {
  reg_inviteCode : Field;
  reg_email : Field;
  reg_password : Field
}.

Inductive Reply : Type :=
| Created (email name role : string) (cookie : string)
| Generated (codes : list string)
| Rejected (status : Z) (error : string).

(** [ToBoolean] of a property of the body. *)
Definition truthy (field : Field) : bool :=
  match field with
  | Absent => false
  | Text s => negb (s =? "")%string
  | Other _ => true
  end.

(** [normalizedEmail.split('@')[0]] *)
Fixpoint before_at (s : string) : string :=
  match s with
  | EmptyString => EmptyString
  | String c rest =>
      if Ascii.eqb c (Ascii.ascii_of_nat 64) (* '@' *) then EmptyString
      else String c (before_at rest)
  end.

Section Route.
Variables toUpperCase toLowerCase trim : string -> string.
Variable jsLength : string -> nat.
Variable inherited : string -> bool.
Variable signJWT : string -> string -> string -> Z -> string.
Variable newCode : Z -> float -> string.

(** [REGISTERED_USERS[normalizedEmail]] is truthy. *)
Definition registered (store : Store) (normalizedEmail : string) : bool :=
  match REGISTERED_USERS store normalizedEmail with
  | Some _ => true
  | None => inherited normalizedEmail
  end.

(** [password.length < 8], for a truthy [password]: a value without
    [length] gives [undefined < 8], which is false. *)
Definition tooShort (password : Field) : bool :=
  match password with
  | Text s => (jsLength s <? 8)%nat
  | Other length => Js.ToNumber length <? 8
  | Absent => false
  end.

(** The handler of a registration; [now] is the time of [new Date()],
    [issuedAt] the time the token is signed, [request] is [None] when the
    body is not JSON.  The invite is looked up under an upper-case key,
    which is no inherited property name.  [inviteCode.toUpperCase()] and
    [email.toLowerCase()] throw when the value is no string, and the
    [catch] answers with status 500; both come before the tables are
    written. *)
Definition POST (now issuedAt : Z) (store : Store) (request : option Registration)
  : Reply * Store :=
  match request with
  | None => (Rejected 500 "Registration failed", store)
  | Some body =>
      if negb (truthy (reg_inviteCode body)) || negb (truthy (reg_email body))
         || negb (truthy (reg_password body))
      then (Rejected 400 "All fields are required", store)
      else
        match reg_inviteCode body with
        | Text code =>
            match VALID_INVITES store (toUpperCase code) with
            | None => (Rejected 400 "Invalid invite code", store)
            | Some invite =>
                if used invite then
                  (Rejected 400 "This invite code has already been used", store)
                else if (now >? expiresAt invite)%Z then
                  (Rejected 400 "This invite code has expired", store)
                else
                  match reg_email body with
                  | Text email =>
                      let normalizedEmail := trim (toLowerCase email) in
                      if registered store normalizedEmail then
                        (Rejected 400 "Email already registered", store)
                      else if tooShort (reg_password body) then
                        (Rejected 400 "Password must be at least 8 characters", store)
                      else
                        let name := before_at normalizedEmail in
                        let users :=
                          assign (REGISTERED_USERS store) normalizedEmail
                            (mkUser (reg_password body) "user" name (toUpperCase code)) in
                        let invites :=
                          assign (VALID_INVITES store) (toUpperCase code)
                            (mkInvite true (createdBy invite) (expiresAt invite)) in
                        (Created normalizedEmail name "user"
                           (signJWT normalizedEmail "user" name issuedAt),
                         mkStore invites users)
                  | _ => (Rejected 500 "Registration failed", store)
                  end
            end
        | _ => (Rejected 500 "Registration failed", store)
        end
  end.

(** The loop of [PUT] from its [i]-th round on: [clock] gives the two
    readings of [Date.now()] of a round, [random] its [Math.random()].
    [fuel] bounds the rounds left. *)
Fixpoint issue (fuel i : nat) (limit : float) (clock : nat -> Z) (random : nat -> float)
    (invites : string -> option InviteRecord) (newCodes : list string)
  : option ((string -> option InviteRecord) * list string) :=
  if number_of_nat i <? limit then
    match fuel with
    | O => None
    | S fuel' =>
        let code := newCode (clock (2 * i)%nat) (random i) in
        issue fuel' (S i) limit clock random
          (assign invites code
             (mkInvite false "admin" (clock (2 * i + 1)%nat + 7 * 24 * 60 * 60 * 1000)))
          (newCodes ++ [code])
    end
  else Some (invites, newCodes).

(** [const { count = 1 } = await request.json()] *)
Definition countOf (count : Js.Value) : float :=
  match count with
  | Js.Undefined => 1
  | _ => Js.ToNumber count
  end.

(** The handler that generates codes; [request] is [None] when the body is
    not a JSON object, otherwise its [count].  The result is [None] if the
    loop were to outrun ten rounds. *)
Definition PUT (clock : nat -> Z) (random : nat -> float) (store : Store)
    (request : option Js.Value) : option (Reply * Store) :=
  match request with
  | None => Some (Rejected 500 "Failed to generate invite codes", store)
  | Some count =>
      match issue 10 0 (Js.Math_min [countOf count; 10]) clock random
              (VALID_INVITES store) [] with
      | Some (invites, newCodes) =>
          Some (Generated newCodes, mkStore invites (REGISTERED_USERS store))
      | None => None
      end
  end.

(** The store after a series of registrations, each with its two times. *)
Definition after (store : Store) (requests : list (Z * Z * option Registration)) : Store :=
  fold_left (fun st r => snd (POST (fst (fst r)) (snd (fst r)) st (snd r))) requests store.

End Route.

(** Every account has the role user, a password that is truthy and, when
    it is a string, has at least 8 units, the name read off its address,
    and an invite code that is marked as used; and no two accounts have the
    same code. *)
Definition accounts_sound (jsLength : string -> nat) (store : Store) : Prop :=
  (forall e u, REGISTERED_USERS store e = Some u ->
     role u = "user"%string /\
     (truthy (password u) = true /\
      forall pass, password u = Text pass -> (8 <= jsLength pass)%nat) /\
     name u = before_at e /\
     exists invite, VALID_INVITES store (inviteCode u) = Some invite /\
                    used invite = true) /\
  (forall e1 e2 u1 u2, e1 <> e2 ->
     REGISTERED_USERS store e1 = Some u1 -> REGISTERED_USERS store e2 = Some u2 ->
     inviteCode u1 <> inviteCode u2).

(** Each of the codes is in the table, unused, made by the admin, and
    expires seven days after a reading of the clock. *)
Definition fresh (clock : nat -> Z) (invites : string -> option InviteRecord)
    (codes : list string) : Prop :=
  forall c, In c codes ->
    exists invite, invites c = Some invite /\ used invite = false /\
                   createdBy invite = "admin"%string /\
                   exists k, expiresAt invite = (clock k + 7 * 24 * 60 * 60 * 1000)%Z.

End Invite.

(** * Vocabulary of the properties *)

(** Position of a detector in the sequence of calls of the handler. *)
Definition detector_index (k : Kind) : nat :=
  match k with
  | zscore => 0
  | volume_spike => 1
  | price_deviation => 2
  | lof => 3
  end.


Definition called_before (a b : AnomalyResult) : Prop :=
  (detector_index (type a) < detector_index (type b))%nat.

Definition olist {A : Type} (o : option A) : list A :=
  match o with
  | Some a => [a]
  | None => []
  end.

(** The inputs the handler passes to the detectors. *)
Definition pricesOf (history : list PriceData) : list float :=
  map (fun d => Js.ToNumber (price d)) history.

Definition volumesOf (history : list PriceData) : list float :=
  map (fun d => Js.ToNumber (volume d)) history.

Definition pointsOf (history : list PriceData) : list (float * float) :=
  map (fun d => (Js.ToNumber (price d), Js.ToNumber (volume d))) history.

(** The findings of the four calls, the detectors reading the clock at
    [t1] .. [t4]. *)
Definition found_at (t1 t2 t3 t4 : Z) (tk : string) (current : PriceData)
    (history : list PriceData) : list AnomalyResult :=
  olist (detectZScoreAnomaly t1 (Js.ToNumber (price current)) (pricesOf history)
           tk zscore_threshold) ++
  olist (detectVolumeSpikeAnomaly t2 (Js.ToNumber (volume current)) (volumesOf history)
           tk volume_threshold) ++
  olist (detectPriceDeviation t3 (Js.ToNumber (price current)) (pricesOf history)
           tk deviation_window deviation_threshold) ++
  olist (detectLOFAnomaly t4 (Js.ToNumber (price current)) (Js.ToNumber (volume current))
           (pointsOf history) tk lof_threshold).

(** A history that is an array of objects (of entries other than [null]). *)
Definition objects (history : list PriceData) : option History :=
  Some (ArrayOf (map Row history)).

(** The entries of the history, when the handler can read them all: the
    history is an array and none of its entries is [null]. *)
Definition readable (rb : RequestBody) : option (list PriceData) :=
  match historicalData rb with
  | Some (ArrayOf entries) => rowsOf entries
  | _ => None
  end.

(** The response body of a successful call (an empty one for an error). *)
Definition body_of (r : Response) : ResponseBody :=
  match r with
  | Ok200 body => body
  | _ => mkResponseBody "" 0 0 [] (mkSummary false None [])
  end.

(** The kinds of a sequence with duplicates removed, each kind at the place
    of its first occurrence (the wording of the specification). *)
Fixpoint first_occurrences (ks : list Kind) : list Kind :=
  match ks with
  | [] => []
  | k :: rest => k :: filter (fun k' => negb (Kind_eqb k' k)) (first_occurrences rest)
  end.

(** A finding apart from the clock reading stored in it: kind, severity,
    score, threshold and ticker. *)
Definition untimed (a : AnomalyResult) : Kind * Severity * float * float * string :=
  (type a, severity a, score a, threshold a, ticker a).

(** An answer apart from the clock readings stored in it. *)
Inductive Outcome : Type :=
| Answered (tk : string) (count : nat)
    (findings : list (Kind * Severity * float * float * string)) (s : Summary)
| Refused (status : Z) (error : string).

Definition outcome (r : Response) : Outcome :=
  match r with
  | Ok200 body =>
      Answered (res_ticker body) (anomalyCount body)
               (map untimed (anomalies body)) (summary body)
  | Error400 e => Refused 400 e
  | Error500 e => Refused 500 e
  end.

Definition untimed_severity (u : Kind * Severity * float * float * string) : Severity :=
  snd (fst (fst (fst u))).

Definition untimed_type (u : Kind * Severity * float * float * string) : Kind :=
  fst (fst (fst (fst u))).

Definition untimed_by_severity (x y : Kind * Severity * float * float * string) : bool :=
  (severityOrder (untimed_severity x) - severityOrder (untimed_severity y) >? 0)%Z.

(** [emitted a]: some call of one of the four detectors returns [a]. *)
Inductive emitted (a : AnomalyResult) : Prop :=
| emitted_zscore now cp hp tk th :
    detectZScoreAnomaly now cp hp tk th = Some a -> emitted a
| emitted_volume_spike now cv hv tk th :
    detectVolumeSpikeAnomaly now cv hv tk th = Some a -> emitted a
| emitted_price_deviation now cp ps tk w th :
    detectPriceDeviation now cp ps tk w th = Some a -> emitted a
| emitted_lof now cp cv hd tk th :
    detectLOFAnomaly now cp cv hd tk th = Some a -> emitted a.

(** The threshold each detector has by default, the one the handler uses. *)
Definition default_threshold (k : Kind) : float :=
  match k with
  | zscore => zscore_threshold
  | volume_spike => volume_threshold
  | price_deviation => deviation_threshold
  | lof => lof_threshold
  end.

(** Distance of the current point from a constant history at [(p, v)], once
    both ranges are replaced by 1. *)
Definition offset (currentPrice currentVolume p v : float) : float :=
  distance ((currentPrice - p) / 1, (currentVolume - v) / 1) (0, 0).

(** [mean] as the specification words it: the arithmetic mean of a
    non-empty sequence, and the failure [EmptyInputError] on an empty
    one. *)
Inductive MeanResult : Type :=
| MeanOf (m : float)
| EmptyInputError.

Definition mean_spec (xs : list float) : MeanResult :=
  match xs with
  | [] => EmptyInputError
  | x :: rest => MeanOf (fold_left PrimFloat.add rest x / Js.length xs)
  end.

(** Two floats that denote the same number: equal, or [+0] and [-0]. *)
Definition same_number (a b : float) : Prop := a = b \/ (a =? b) = true.

Definition both_zero (a b : float) : Prop :=
  exists s s', Prim2SF a = S754_zero s /\ Prim2SF b = S754_zero s'.

(** The three top-level properties the handler tests: each must be there
    and truthy. *)
Definition top_level_present (rb : RequestBody) : bool :=
  match req_ticker rb with
  | Some tk => negb (tk =? "")%string
  | None => false
  end
  && match currentData rb with Some _ => true | None => false end
  && match historicalData rb with Some _ => true | None => false end.

Definition is_number (v : Js.Value) : bool :=
  match v with
  | Js.Num _ => true
  | _ => false
  end.

Definition complete (d : PriceData) : bool := is_number (price d) && is_number (volume d).

(** A request has a hole when a price or a volume, of the current
    observation or of a history entry, is absent or [null]. *)
Definition has_hole (rb : RequestBody) : bool :=
  match currentData rb, readable rb with
  | Some current, Some history => negb (complete current && forallb complete history)
  | _, _ => false
  end.

Definition is_error (r : Response) : bool :=
  match r with
  | Ok200 _ => false
  | _ => true
  end.

(** The findings collected so far carry the clock readings taken so far, in
    order. *)
Definition stamped (clock : nat -> Z) (st : list AnomalyResult * nat) : Prop :=
  snd st = List.length (fst st) /\
  map timestamp (fst st) = map clock (seq 0 (snd st)).

(** The number of findings in [l] that come from detectors called before
    the one that made [a]. *)
Definition earlier (l : list AnomalyResult) (a : AnomalyResult) : nat :=
  List.length
    (filter (fun b => (detector_index (type b) <? detector_index (type a))%nat) l).

(** The price history as the route computes with it. *)
Definition received (history : list float) : list float :=
  map (fun p => Js.ToNumber (overWire p)) history.

(** The list shown holds at most 50 findings, and no more than were counted. *)
Definition bounded {Anomaly : Type} (feed : list Anomaly * nat) : Prop :=
  (List.length (fst feed) <= 50)%nat /\ (List.length (fst feed) <= snd feed)%nat.

(** The severity a detector gives to a score. *)
Definition bucket (k : Kind) (s : float) : Severity :=
  match k with
  | zscore => zscore_severity s
  | volume_spike => volume_severity s
  | price_deviation => deviation_severity s
  | lof => lof_severity s
  end.

(** ** Sample requests *)

Definition observation (p v : float) : PriceData :=
  mkPriceData Js.Undefined (Js.Num p) (Js.Num v).

Definition request_for (current : PriceData) (history : list PriceData)
  : option RequestBody :=
  Some (mkRequestBody (Some "BTCUSDT"%string) (Some current) (objects history)).

Definition sample_clock (n : nat) : Z := 1700000000000 + Z.of_nat n.

(** Twenty prices between 99 and 101 at a steady volume of 1000. *)
Definition steady_history : list PriceData :=
  map (fun p => observation p 1000)
      [99; 100; 101; 99; 100; 101; 99; 100; 101; 99;
       100; 101; 99; 100; 101; 99; 100; 101; 99; 100].

(** A jump to 106 at four times the volume: all four detectors fire. *)
Definition jump_request : option RequestBody :=
  request_for (observation 106 4000) steady_history.

(** A history held at price 50 and volume 1000. *)
Definition flat_history : list (float * float) := repeat (50, 1000) 20.

(** The binary64 value nearest to 0.1, as a JSON parser reads [0.1]. *)
Definition one_tenth : float := 0x1.999999999999ap-4.

(** The jump of [jump_request] with the current price left out. *)
Definition priceless_request : RequestBody :=
  mkRequestBody (Some "BTCUSDT"%string)
    (Some (mkPriceData Js.Undefined Js.Undefined (Js.Num 4000)))
    (objects steady_history).

(** A history whose first entry has no price and whose second has a [null]
    volume. *)
Definition holed_history : list PriceData :=
  mkPriceData Js.Undefined Js.Undefined (Js.Num 1000)
  :: mkPriceData Js.Undefined (Js.Num 100) Js.Null
  :: steady_history.

(** Twenty prices alternating between 99 and 101 (mean 100, standard
    deviation 1) at a volume of 1000. *)
Definition even_history : list PriceData :=
  map (fun p => observation p 1000)
      [99; 101; 99; 101; 99; 101; 99; 101; 99; 101;
       99; 101; 99; 101; 99; 101; 99; 101; 99; 101].

Definition even_prices : list float :=
  [99; 101; 99; 101; 99; 101; 99; 101; 99; 101;
   99; 101; 99; 101; 99; 101; 99; 101; 99; 101].

(** The jump to 105 over [even_history]: a z-score of exactly 5. *)
Definition even_jump : AnomalyResult :=
  mkAnomalyResult zscore critical 5 2.5 1700000000000 "BTCUSDT".

(** The volume spike of [jump_request]: four times the mean volume. *)
Definition jump_volume_spike : AnomalyResult :=
  mkAnomalyResult volume_spike medium 4 3 1700000000001 "BTCUSDT".

(** The same spike when it is the only finding. *)
Definition lone_volume_spike : AnomalyResult :=
  mkAnomalyResult volume_spike medium 4 3 1700000000000 "BTCUSDT".

(** A request whose history has an entry without price, and one whose
    history has an entry without volume. *)
Definition price_hole : PriceData := mkPriceData Js.Undefined Js.Undefined (Js.Num 1000).

Definition volume_hole : PriceData := mkPriceData Js.Undefined (Js.Num 100) Js.Undefined.

Definition price_hole_request : RequestBody :=
  mkRequestBody (Some "BTCUSDT"%string) (Some (observation 100 4000))
    (objects (price_hole :: steady_history)).

Definition volume_hole_request : RequestBody :=
  mkRequestBody (Some "BTCUSDT"%string) (Some (observation 105 1000))
    (objects (volume_hole :: even_history)).

(** A request that gives a current price and no current volume. *)
Definition volumeless_request : RequestBody :=
  mkRequestBody (Some "BTCUSDT"%string)
    (Some (mkPriceData Js.Undefined (Js.Num 105) Js.Undefined))
    (objects even_history).

(** Ten entries only, at four times the volume. *)
Definition short_request : RequestBody :=
  mkRequestBody (Some "BTCUSDT"%string) (Some (observation 100 4000))
    (objects (firstn 10 steady_history)).

(** What the dashboard holds for a symbol, and two runs of its random
    generator and clock. *)
Definition sample_market : MarketData := mkMarketData 105 1000.

Definition half (_ : nat) : float := 0.5.

Definition quarter (_ : nat) : float := 0.25.

Definition browser_clock (n : nat) : float := 1700000000000.

(** Stand-ins for the string operations, for strings of ASCII characters. *)
Definition upper_char (c : Ascii.ascii) : Ascii.ascii :=
  let n := Ascii.nat_of_ascii c in
  if (97 <=? n)%nat && (n <=? 122)%nat then Ascii.ascii_of_nat (n - 32) else c.

Definition lower_char (c : Ascii.ascii) : Ascii.ascii :=
  let n := Ascii.nat_of_ascii c in
  if (65 <=? n)%nat && (n <=? 90)%nat then Ascii.ascii_of_nat (n + 32) else c.

Fixpoint ascii_upper (s : string) : string :=
  match s with
  | EmptyString => EmptyString
  | String c rest => String (upper_char c) (ascii_upper rest)
  end.

Fixpoint ascii_lower (s : string) : string :=
  match s with
  | EmptyString => EmptyString
  | String c rest => String (lower_char c) (ascii_lower rest)
  end.

(** For strings without spaces at their ends. *)
Definition no_trim (s : string) : string := s.

Definition sample_inherited (s : string) : bool :=
  (s =? "constructor")%string || (s =? "__proto__")%string.

Definition sample_sign (email role name : string) (issuedAt : Z) : string :=
  (email ++ ":" ++ name)%string.

Definition sample_code (now : Z) (random : float) : string := "ORACLE-NEW-0001".

Definition sample_register :=
  Invite.POST ascii_upper ascii_lower no_trim String.length sample_inherited sample_sign.

Definition ann : Invite.Registration :=
  Invite.mkRegistration (Invite.Text "oracle-2025-alpha")
    (Invite.Text "Ann@Example.com") (Invite.Text "correct horse").

Definition bob : Invite.Registration :=
  Invite.mkRegistration (Invite.Text "security-360-vip")
    (Invite.Text "bob@example.com") (Invite.Text "battery staple").

(** Dan gives the number 1234 as password, which has no [length]. *)
Definition dan : Invite.Registration :=
  Invite.mkRegistration (Invite.Text "chapmans-beta-001")
    (Invite.Text "dan@example.com") (Invite.Other Js.Undefined).

(** The tables after Ann has registered, and after one code has been
    generated. *)
Definition after_ann : Invite.Store :=
  snd (sample_register 1700000000000 1700000000000 Invite.initial (Some ann)).

Definition after_generation : Invite.Store :=
  match Invite.PUT sample_code sample_clock half Invite.initial (Some (Js.Num 1)) with
  | Some (_, store) => store
  | None => Invite.initial
  end.

(** * Properties *)

(** ** The stable sort *)

Section SortFacts.
Context {A : Type} (after : A -> A -> bool).

Lemma In_insert (x y : A) (s : list A) :
  In y (Js.insert after x s) <-> y = x \/ In y s.
Proof.
  induction s as [|z s IH]; simpl.
  - intuition auto.
  - destruct (after x z); simpl; rewrite ?IH; intuition auto.
Qed.

Lemma In_sort (y : A) (l : list A) : In y (Js.sort after l) <-> In y l.
Proof.
  induction l as [|x l IH]; simpl; [tauto|].
  rewrite In_insert, IH. intuition auto.
Qed.

Lemma length_insert (x : A) (s : list A) :
  List.length (Js.insert after x s) = S (List.length s).
Proof.
  induction s as [|z s IH]; simpl; [reflexivity|].
  destruct (after x z); simpl; now rewrite ?IH.
Qed.

Lemma length_sort (l : list A) : List.length (Js.sort after l) = List.length l.
Proof.
  induction l as [|x l IH]; simpl; [reflexivity|].
  now rewrite length_insert, IH.
Qed.


(** Sorting commutes with a map that the comparator does not see. *)
Lemma sort_map {B : Type} (after' : B -> B -> bool) (f : A -> B) :
  (forall a b, after' (f a) (f b) = after a b) ->
  forall l, Js.sort after' (map f l) = map f (Js.sort after l).
Proof.
  intros Hf. induction l as [|x l IH]; simpl; [reflexivity|].
  rewrite IH. generalize (Js.sort after l) as s.
  induction s as [|z s IHs]; simpl; [reflexivity|].
  rewrite Hf. destruct (after x z); simpl; now rewrite ?IHs.
Qed.

(** A list no element of which goes behind another is left as it is. *)
Lemma sort_fixed (l : list A) :
  (forall a b, In a l -> In b l -> after a b = false) -> Js.sort after l = l.
Proof.
  induction l as [|x l IH]; intros H; simpl; [reflexivity|].
  rewrite IH by (intros; apply H; simpl; auto).
  destruct l as [|z l]; simpl; [reflexivity|].
  now rewrite H by (simpl; auto).
Qed.
End SortFacts.


(** ** Order of the findings *)



(** ** What the handler collects *)

Lemma collect_found (clock : nat -> Z) (tk : string) (current : PriceData)
    (history : list PriceData) :
  exists t1 t2 t3 t4,
    fst (collect clock tk current history) = found_at t1 t2 t3 t4 tk current history.
Proof.
  unfold collect, found_at, pricesOf, volumesOf, pointsOf. cbv zeta.
  set (hp := map (fun d => Js.ToNumber (price d)) history).
  set (hv := map (fun d => Js.ToNumber (volume d)) history).
  set (cp := Js.ToNumber (price current)).
  set (cv := Js.ToNumber (volume current)).
  set (st1 := push (detectZScoreAnomaly _ cp hp tk _) _).
  set (st2 := push (detectVolumeSpikeAnomaly _ cv hv tk _) st1).
  set (st3 := push (detectPriceDeviation _ cp hp tk _ _) st2).
  exists (clock O), (clock (snd st1)), (clock (snd st2)), (clock (snd st3)).
  assert (Hpush : forall r st, fst (push r st) = fst st ++ olist r).
  { intros [a|] [l n]; simpl; [reflexivity | now rewrite app_nil_r]. }
  rewrite Hpush. subst st3. rewrite Hpush. subst st2. rewrite Hpush.
  subst st1. rewrite Hpush. simpl fst. simpl snd.
  now rewrite <- !app_assoc.
Qed.

(** ** What a detector returns *)

(** Splits an equation [detector ... = Some a] along the tests of the
    detector, down to the record it builds. *)
Ltac detector_cases E :=
  cbv zeta in E;
  repeat match type of E with
         | (if ?c then _ else _) = Some _ =>
             let Hc := fresh "Hc" in destruct c eqn:Hc; try discriminate E
         end;
  try (injection E as <-).

Lemma detectZScoreAnomaly_Some now cp hp tk th a :
  detectZScoreAnomaly now cp hp tk th = Some a ->
  type a = zscore /\ threshold a = th /\ timestamp a = now /\ ticker a = tk /\
  severity a = zscore_severity (score a) /\ Js.gt (score a) th = true.
Proof.
  unfold detectZScoreAnomaly. intros E. detector_cases E. simpl. repeat split; assumption || reflexivity.
Qed.

Lemma detectVolumeSpikeAnomaly_Some now cv hv tk th a :
  detectVolumeSpikeAnomaly now cv hv tk th = Some a ->
  type a = volume_spike /\ threshold a = th /\ timestamp a = now /\ ticker a = tk /\
  severity a = volume_severity (score a) /\ Js.gt (score a) th = true.
Proof.
  unfold detectVolumeSpikeAnomaly. intros E. detector_cases E. simpl. repeat split; assumption || reflexivity.
Qed.

Lemma detectPriceDeviation_Some now cp ps tk w th a :
  detectPriceDeviation now cp ps tk w th = Some a ->
  type a = price_deviation /\ threshold a = th /\ timestamp a = now /\ ticker a = tk /\
  severity a = deviation_severity (score a) /\ Js.gt (score a) th = true.
Proof.
  unfold detectPriceDeviation. intros E. detector_cases E. simpl. repeat split; assumption || reflexivity.
Qed.

Lemma detectLOFAnomaly_Some now cp cv hd tk th a :
  detectLOFAnomaly now cp cv hd tk th = Some a ->
  type a = lof /\ threshold a = th /\ timestamp a = now /\ ticker a = tk /\
  severity a = lof_severity (score a) /\ Js.gt (score a) th = true.
Proof.
  unfold detectLOFAnomaly. intros E. detector_cases E. simpl. repeat split; assumption || reflexivity.
Qed.

Lemma detectLOFAnomaly_score now cp cv hd tk th a :
  detectLOFAnomaly now cp cv hd tk th = Some a -> score a = lofScoreOf cp cv hd.
Proof.
  unfold detectLOFAnomaly. intros E. detector_cases E. reflexivity.
Qed.

(** The findings are collected in the order of the calls, one at most per
    detector. *)
Lemma found_at_called_in_order (t1 t2 t3 t4 : Z) (tk : string)
    (current : PriceData) (history : list PriceData) :
  StronglySorted called_before (found_at t1 t2 t3 t4 tk current history).
Proof.
  unfold found_at.
  destruct (detectZScoreAnomaly _ _ _ _ _) as [a1|] eqn:E1;
    [apply detectZScoreAnomaly_Some in E1 as (K1 & _)|];
  (destruct (detectVolumeSpikeAnomaly _ _ _ _ _) as [a2|] eqn:E2;
    [apply detectVolumeSpikeAnomaly_Some in E2 as (K2 & _)|]);
  (destruct (detectPriceDeviation _ _ _ _ _ _) as [a3|] eqn:E3;
    [apply detectPriceDeviation_Some in E3 as (K3 & _)|]);
  (destruct (detectLOFAnomaly _ _ _ _ _ _) as [a4|] eqn:E4;
    [apply detectLOFAnomaly_Some in E4 as (K4 & _)|]);
  simpl; repeat constructor; unfold called_before;
  rewrite ?K1, ?K2, ?K3, ?K4; simpl; lia.
Qed.

(** ** What the handler answers *)

(** The history can be read exactly when it is an array of entries other
    than [null]. *)
Lemma rowsOf_Some (entries : list Entry) (history : list PriceData) :
  rowsOf entries = Some history <-> entries = map Row history.
Proof.
  revert history. induction entries as [|[|d] entries IH]; intros history; simpl.
  - split; intros H.
    + now injection H as <-.
    + destruct history; [reflexivity | discriminate].
  - split; intros H; [discriminate | destruct history; discriminate].
  - destruct (rowsOf entries) as [rest|]; simpl; split; intros H.
    + injection H as <-. simpl. f_equal. now apply IH.
    + destruct history as [|d' history]; [discriminate|].
      injection H as -> H. apply IH in H. now injection H as ->.
    + discriminate.
    + destruct history as [|d' history]; [discriminate|].
      injection H as -> H. now apply IH in H.
Qed.

Lemma rowsOf_objects (history : list PriceData) :
  rowsOf (map Row history) = Some history.
Proof. now apply rowsOf_Some. Qed.

Lemma readable_entries (rb : RequestBody) (entries : list Entry) (history : list PriceData) :
  historicalData rb = Some (ArrayOf entries) -> readable rb = Some history ->
  entries = map Row history.
Proof. unfold readable. intros ->. apply rowsOf_Some. Qed.

Lemma POST_Ok200 (clock : nat -> Z) (request : option RequestBody) (body : ResponseBody) :
  POST clock request = Ok200 body ->
  exists rb tk current history,
    request = Some rb /\
    req_ticker rb = Some tk /\ tk <> ""%string /\
    currentData rb = Some current /\ readable rb = Some history /\
    res_ticker body = tk /\
    anomalies body = Js.sort by_severity (fst (collect clock tk current history)) /\
    anomalyCount body = List.length (anomalies body) /\
    summary body = summarize (anomalies body).
Proof.
  unfold POST, readable. intros H.
  destruct request as [rb|]; [|discriminate].
  destruct (req_ticker rb) as [tk|] eqn:Etk; [|discriminate].
  destruct (currentData rb) as [current|] eqn:Ecur; [|discriminate].
  destruct (historicalData rb) as [[|entries]|] eqn:Ehist;
    [destruct (tk =? "")%string; discriminate | | discriminate].
  destruct (String.eqb_spec tk "") as [->|Hne]; [discriminate|].
  destruct (rowsOf entries) as [history|] eqn:Erows; [|discriminate].
  destruct (collect clock tk current history) as [found readings] eqn:Ec.
  injection H as <-. simpl.
  exists rb, tk, current, history. rewrite Ec, Ehist. repeat split; auto.
Qed.

(** A request with its three parts and a history that can be read is
    answered with status 200; one whose history cannot be read, with
    status 500. *)
Lemma POST_readable (clock : nat -> Z) (rb : RequestBody) (tk : string)
    (current : PriceData) (history : list PriceData) :
  req_ticker rb = Some tk -> tk <> ""%string -> currentData rb = Some current ->
  readable rb = Some history ->
  POST clock (Some rb)
  = Ok200 {| res_ticker := tk;
             res_timestamp := clock (snd (collect clock tk current history));
             anomalyCount :=
               List.length (Js.sort by_severity (fst (collect clock tk current history)));
             anomalies := Js.sort by_severity (fst (collect clock tk current history));
             summary :=
               summarize (Js.sort by_severity (fst (collect clock tk current history))) |}.
Proof.
  unfold POST, readable. intros -> Hne -> Hread.
  destruct (String.eqb_spec tk "") as [|_]; [contradiction|].
  destruct (historicalData rb) as [[|entries]|]; try discriminate.
  rewrite Hread. now destruct (collect clock tk current history).
Qed.

Lemma POST_unreadable (clock : nat -> Z) (rb : RequestBody) (tk : string)
    (current : PriceData) (history : History) :
  req_ticker rb = Some tk -> tk <> ""%string -> currentData rb = Some current ->
  historicalData rb = Some history -> readable rb = None ->
  POST clock (Some rb) = Error500 "Anomaly detection failed".
Proof.
  unfold POST, readable. intros -> Hne -> -> Hread.
  destruct (String.eqb_spec tk "") as [|_]; [contradiction|].
  destruct history as [|entries]; [reflexivity|]. now rewrite Hread.
Qed.

(** ** Sample runs *)

Example sort_numbers : Js.sort by_difference [3; 1; 2.5; 1; 0] = [0; 1; 1; 2.5; 3].
Proof. vm_compute. reflexivity. Qed.

Example min_max_of_zeros :
  Js.is_neg_zero (Js.Math_min [0; -0; 0]) = true /\
  Js.is_pos_zero (Js.Math_max [-0; 0; -0]) = true /\
  Js.Math_min [3; nan; 1] = nan /\ Js.Math_max [3; 7; 1] = 7.
Proof. repeat split; vm_compute; reflexivity. Qed.

Example slice_last_three : Js.slice_last 3 [1; 2; 3; 4; 5] = [3; 4; 5].
Proof. vm_compute. reflexivity. Qed.

(** Prices flat at 50 and the current price at 50: nothing to report. *)
Example flat_request_silent :
  outcome (POST sample_clock
             (request_for (observation 50 1000) (repeat (observation 50 1000) 20)))
  = Answered "BTCUSDT" 0 [] (mkSummary false None []).
Proof. vm_compute. reflexivity. Qed.

Example jump_request_kinds :
  map (fun a => (type a, severity a)) (anomalies (body_of (POST sample_clock jump_request)))
  = [(zscore, critical); (lof, critical); (volume_spike, medium); (price_deviation, medium)].
Proof. vm_compute. reflexivity. Qed.

(** ** Facts on binary64 arithmetic

    Derived from the specification of the primitive operations
    ([FloatAxioms]) by cases on the class of the operands. *)

Lemma SFcompare_refl (x : spec_float) :
  x <> S754_nan -> SFcompare x x = Some Eq.
Proof.
  destruct x as [s|s| |s m e]; intros Hx; simpl.
  - reflexivity.
  - now destruct s.
  - contradiction.
  - destruct s; rewrite Z.compare_refl, Pos.compare_cont_refl; reflexivity.
Qed.

Lemma Prim2SF_nan (x : float) : Prim2SF x = S754_nan -> x = nan.
Proof. intros H. apply Prim2SF_inj. rewrite H. reflexivity. Qed.

Lemma is_nan_spec (x : float) : is_nan x = true <-> x = nan.
Proof.
  split.
  - unfold is_nan. rewrite FloatAxioms.eqb_spec. unfold SFeqb. intros H.
    apply Prim2SF_nan.
    destruct (Prim2SF x) eqn:E; try reflexivity;
      rewrite SFcompare_refl in H by discriminate; discriminate.
  - intros ->. reflexivity.
Qed.

Lemma ltb_irrefl (x : float) : (x <? x) = false.
Proof.
  rewrite FloatAxioms.ltb_spec. unfold SFltb.
  destruct (Prim2SF x) eqn:E; try reflexivity;
    now rewrite SFcompare_refl by discriminate.
Qed.

Lemma gt_not_nan (s t : float) : Js.gt s t = true -> is_nan s = false.
Proof.
  unfold Js.gt. intros H.
  destruct (is_nan s) eqn:E; [|reflexivity].
  apply is_nan_spec in E. subst s.
  rewrite FloatAxioms.ltb_spec in H. unfold SFltb in H.
  replace (Prim2SF nan) with S754_nan in H by reflexivity.
  destruct (Prim2SF t); discriminate.
Qed.

Lemma gt_positive (s t : float) :
  Js.gt t 0 = true -> Js.gt s t = true -> Js.gt s 0 = true.
Proof.
  unfold Js.gt. rewrite !FloatAxioms.ltb_spec. unfold SFltb.
  replace (Prim2SF 0) with (S754_zero false) by reflexivity.
  destruct (Prim2SF t) as [[|]|[|]| |[|] mt et];
    destruct (Prim2SF s) as [[|]|[|]| |[|] ms es]; simpl;
    try discriminate; try reflexivity.
Qed.

Lemma float_of_SF (x : float) (f : spec_float) : Prim2SF x = f -> x = SF2Prim f.
Proof. intros <-. now rewrite SF2Prim_Prim2SF. Qed.

(** [x - x] is [+0], or [NaN] when [x] is infinite or [NaN]. *)
Lemma sub_self (x : float) : x - x = 0 \/ x - x = nan.
Proof.
  pose proof (sub_spec x x) as H. unfold SF64sub, SFsub in H.
  destruct (Prim2SF x) as [[|]|[|]| |s m e].
  1-5: apply float_of_SF in H; rewrite H; auto.
  rewrite Z.sub_diag in H. simpl in H.
  apply float_of_SF in H; rewrite H; auto.
Qed.

Lemma is_finite_SF (x : float) :
  is_finite x = true ->
  (exists s, Prim2SF x = S754_zero s) \/ (exists s m e, Prim2SF x = S754_finite s m e).
Proof.
  unfold is_finite, is_infinity, is_nan.
  rewrite !FloatAxioms.eqb_spec, abs_spec. unfold SFeqb.
  replace (Prim2SF infinity) with (S754_infinity false) by reflexivity.
  destruct (Prim2SF x) as [s|s| |s m e]; simpl; eauto.
  - destruct s; discriminate.
  - discriminate.
Qed.

Lemma finite_sub_self (x : float) : is_finite x = true -> x - x = 0.
Proof.
  intros Hx. pose proof (sub_spec x x) as H. unfold SF64sub, SFsub in H.
  destruct (is_finite_SF x Hx) as [[s E]|(s & m & e & E)]; rewrite E in H.
  - destruct s; apply float_of_SF in H; rewrite H; reflexivity.
  - rewrite Z.sub_diag in H. simpl in H.
    apply float_of_SF in H; rewrite H; reflexivity.
Qed.

Lemma falsy_sub_self (x : float) : Js.falsy (x - x) = true.
Proof. destruct (sub_self x) as [-> | ->]; reflexivity. Qed.

(** [0 / y] is a zero or [NaN]. *)
Lemma falsy_zero_div (y : float) : Js.falsy (0 / y) = true.
Proof.
  pose proof (div_spec 0 y) as H. unfold SF64div, SFdiv in H.
  replace (Prim2SF 0) with (S754_zero false) in H by reflexivity.
  destruct (Prim2SF y) as [[|]|[|]| |[|] m e];
    apply float_of_SF in H; rewrite H; reflexivity.
Qed.

Lemma min_step_infinity (p : float) :
  is_nan p = false -> Js.min_step infinity p = p.
Proof.
  intros Hp. unfold Js.min_step.
  replace (Js.is_pos_zero infinity) with false by reflexivity.
  rewrite andb_false_r.
  destruct (p <? infinity) eqn:E; [reflexivity|].
  rewrite FloatAxioms.ltb_spec in E. unfold SFltb in E.
  replace (Prim2SF infinity) with (S754_infinity false) in E by reflexivity.
  destruct (Prim2SF p) as [s|[|]| |[|] m e] eqn:Ep; try discriminate.
  - apply float_of_SF in Ep. now rewrite Ep.
  - apply Prim2SF_nan, is_nan_spec in Ep. congruence.
Qed.

Lemma max_step_neg_infinity (p : float) :
  is_nan p = false -> Js.max_step neg_infinity p = p.
Proof.
  intros Hp. unfold Js.max_step, Js.gt.
  replace (Js.is_neg_zero neg_infinity) with false by reflexivity.
  rewrite andb_false_r.
  destruct (neg_infinity <? p) eqn:E; [reflexivity|].
  rewrite FloatAxioms.ltb_spec in E. unfold SFltb in E.
  replace (Prim2SF neg_infinity) with (S754_infinity true) in E by reflexivity.
  destruct (Prim2SF p) as [s|[|]| |[|] m e] eqn:Ep; try discriminate.
  - apply float_of_SF in Ep. now rewrite Ep.
  - apply Prim2SF_nan, is_nan_spec in Ep. congruence.
Qed.

Lemma min_step_same (p : float) : Js.min_step p p = p.
Proof. unfold Js.min_step. now destruct (_ && _), (p <? p). Qed.

Lemma max_step_same (p : float) : Js.max_step p p = p.
Proof. unfold Js.max_step. now destruct (_ && _), (Js.gt p p). Qed.

Lemma fold_left_same (step : float -> float -> float) (p : float) (n : nat) :
  step p p = p -> fold_left step (repeat p n) p = p.
Proof. intros H. induction n as [|n IH]; simpl; [reflexivity|]. now rewrite H. Qed.

Lemma existsb_repeat_false {A} (f : A -> bool) (x : A) (n : nat) :
  f x = false -> existsb f (repeat x n) = false.
Proof. intros H. induction n as [|n IH]; simpl; [reflexivity|]. now rewrite H. Qed.

Lemma Math_min_repeat (p : float) (n : nat) : Js.Math_min (repeat p (S n)) = p.
Proof.
  unfold Js.Math_min. destruct (is_nan p) eqn:Hp.
  - simpl. rewrite Hp. simpl. symmetry. now apply is_nan_spec.
  - rewrite existsb_repeat_false by assumption. simpl.
    rewrite min_step_infinity by assumption.
    apply fold_left_same, min_step_same.
Qed.

Lemma Math_max_repeat (p : float) (n : nat) : Js.Math_max (repeat p (S n)) = p.
Proof.
  unfold Js.Math_max. destruct (is_nan p) eqn:Hp.
  - simpl. rewrite Hp. simpl. symmetry. now apply is_nan_spec.
  - rewrite existsb_repeat_false by assumption. simpl.
    rewrite max_step_neg_infinity by assumption.
    apply fold_left_same, max_step_same.
Qed.

(** [NaN] propagates through the arithmetic and fails every comparison. *)
Lemma sub_nan_l (x : float) : nan - x = nan.
Proof.
  pose proof (sub_spec nan x) as H. unfold SF64sub, SFsub in H.
  replace (Prim2SF nan) with S754_nan in H by reflexivity.
  apply float_of_SF in H. rewrite H. reflexivity.
Qed.

Lemma div_nan_l (x : float) : nan / x = nan.
Proof.
  pose proof (div_spec nan x) as H. unfold SF64div, SFdiv in H.
  replace (Prim2SF nan) with S754_nan in H by reflexivity.
  apply float_of_SF in H. rewrite H. reflexivity.
Qed.

Lemma mul_nan_l (x : float) : nan * x = nan.
Proof.
  pose proof (mul_spec nan x) as H. unfold SF64mul, SFmul in H.
  replace (Prim2SF nan) with S754_nan in H by reflexivity.
  apply float_of_SF in H. rewrite H. reflexivity.
Qed.

Lemma gt_nan_l (t : float) : Js.gt nan t = false.
Proof.
  destruct (Js.gt nan t) eqn:E; [|reflexivity].
  apply gt_not_nan in E. discriminate.
Qed.

Lemma sqrt_zero_or_nan (x : float) :
  Js.falsy x = true -> Js.falsy (PrimFloat.sqrt x) = true.
Proof.
  unfold Js.falsy. intros H.
  pose proof (sqrt_spec x) as Hs. unfold SF64sqrt, SFsqrt in Hs.
  destruct (Prim2SF x) as [[|]|[|]| |s m e] eqn:Ex;
    try (apply float_of_SF in Hs; rewrite Hs; reflexivity).
  - apply float_of_SF in Ex. rewrite Ex in H. discriminate.
  - exfalso. apply orb_true_iff in H as [H|H].
    + rewrite FloatAxioms.eqb_spec, Ex in H. destruct s; discriminate.
    + apply is_nan_spec in H. subst x. vm_compute in Ex. discriminate.
Qed.

Lemma div_nan_r (x : float) : x / nan = nan.
Proof.
  pose proof (div_spec x nan) as H. unfold SF64div, SFdiv in H.
  replace (Prim2SF nan) with S754_nan in H by reflexivity.
  destruct (Prim2SF x); apply float_of_SF in H; rewrite H; reflexivity.
Qed.

(** ** Facts on constant series *)

Lemma firstn_repeat_le {A} (x : A) (k n : nat) :
  (k <= n)%nat -> firstn k (repeat x n) = repeat x k.
Proof.
  revert n. induction k as [|k IH]; intros n Hk; [reflexivity|].
  destruct n as [|n]; [lia|]. simpl. f_equal. apply IH. lia.
Qed.

Lemma nth_repeat_lt {A} (x d : A) (i n : nat) :
  (i < n)%nat -> nth i (repeat x n) d = x.
Proof.
  revert n. induction i as [|i IH]; intros [|n] Hi; try lia; simpl; [reflexivity|].
  apply IH. lia.
Qed.

Lemma filter_other_repeat {A} (x : A) (i n : nat) :
  (i <= n)%nat -> Js.filter_other i (repeat x (S n)) = repeat x n.
Proof.
  revert n. induction i as [|i IH]; intros n Hi; simpl; [reflexivity|].
  destruct n as [|n]; [lia|]. simpl. f_equal. apply IH. lia.
Qed.

Lemma mapi_from_const {A B} (f : A -> nat -> B) (c : B) (l : list A) (start : nat) :
  (forall x i, (start <= i < start + List.length l)%nat -> f x i = c) ->
  Js.mapi_from start f l = repeat c (List.length l).
Proof.
  revert start. induction l as [|x l IH]; intros start H; simpl; [reflexivity|].
  rewrite H by (simpl; lia). f_equal. apply IH.
  intros y i Hi. apply H. simpl. lia.
Qed.

Lemma sort_repeat (d : float) (n : nat) :
  Js.sort by_difference (repeat d n) = repeat d n.
Proof.
  apply sort_fixed. intros a b Ha Hb.
  apply repeat_spec in Ha, Hb. subst a b.
  unfold by_difference, Js.gt.
  destruct (sub_self d) as [-> | ->]; reflexivity.
Qed.

Lemma mean_five (d : float) (n : nat) :
  (5 <= n)%nat -> mean (firstn 5 (Js.sort by_difference (repeat d n))) = mean (repeat d 5).
Proof. intros Hn. now rewrite sort_repeat, firstn_repeat_le. Qed.

Lemma sum_zeros (n : nat) : sum (repeat 0 n) = 0.
Proof.
  unfold sum. induction n as [|n IH]; simpl; [reflexivity|].
  replace (0 + 0) with 0 by reflexivity. exact IH.
Qed.

Lemma kDistancesOf_constant (n : nat) :
  (6 <= n)%nat -> kDistancesOf 5 (repeat (0, 0) n) = repeat 0 n.
Proof.
  intros Hn. unfold kDistancesOf, Js.mapi.
  transitivity (repeat 0 (List.length (repeat (0, 0) n)));
    [|now rewrite repeat_length].
  apply mapi_from_const. intros _ i Hi. rewrite repeat_length in Hi.
  rewrite nth_repeat_lt by lia.
  destruct n as [|m]; [lia|].
  rewrite filter_other_repeat by lia.
  rewrite map_repeat.
  replace (distance (0, 0) (0, 0)) with 0 by reflexivity.
  rewrite mean_five by lia. reflexivity.
Qed.

(** ** C1: order of the returned findings *)



(** ** C2: the summary *)

Lemma Kind_eqb_eq (a b : Kind) : Kind_eqb a b = true <-> a = b.
Proof. destruct a, b; simpl; split; congruence. Qed.

Lemma includes_app (l : list Kind) (k x : Kind) :
  includes (l ++ [k]) x = includes l x || Kind_eqb x k.
Proof. unfold includes. rewrite existsb_app. simpl. now rewrite orb_false_r. Qed.

Lemma filter_filter {A : Type} (p q : A -> bool) (l : list A) :
  filter p (filter q l) = filter (fun x => q x && p x) l.
Proof.
  induction l as [|x l IH]; simpl; [reflexivity|].
  destruct (q x); simpl; [destruct (p x)|]; now rewrite IH.
Qed.

(** The loop over the findings, started from any list of kinds seen. *)
Lemma typesOf_from (l : list AnomalyResult) (seen : list Kind) :
  fold_left (fun typesList a =>
               if includes typesList (type a) then typesList
               else typesList ++ [type a]) l seen
  = seen ++ filter (fun k => negb (includes seen k)) (first_occurrences (map type l)).
Proof.
  revert seen. induction l as [|a l IH]; intros seen; simpl.
  - now rewrite app_nil_r.
  - rewrite filter_filter.
    destruct (includes seen (type a)) eqn:Hin; simpl.
    + rewrite IH. f_equal. apply filter_ext. intros k.
      destruct (Kind_eqb k (type a)) eqn:Hk; simpl; [|reflexivity].
      apply Kind_eqb_eq in Hk. subst k. now rewrite Hin.
    + rewrite IH, <- app_assoc. simpl. do 2 f_equal.
      apply filter_ext. intros k. rewrite includes_app.
      destruct (Kind_eqb k (type a)), (includes seen k); reflexivity.
Qed.

Lemma typesOf_first_occurrences (l : list AnomalyResult) :
  typesOf l = first_occurrences (map type l).
Proof.
  unfold typesOf. rewrite typesOf_from. simpl.
  induction (first_occurrences (map type l)) as [|k ks IH]; simpl; congruence.
Qed.

(** C2.  In every successful answer, [hasAnomalies] is true exactly when
    there is a finding; [highestSeverity] is the severity of the first
    finding of the sorted sequence, and 'none' when there is no finding;
    and [types] lists the kinds of the sorted findings without duplicates,
    in the order of their first occurrence. *)
Theorem summary_of_findings
    (clock : nat -> Z) (request : option RequestBody) (body : ResponseBody) :
  POST clock request = Ok200 body ->
  (hasAnomalies (summary body) = true <-> anomalies body <> []) /\
  highestSeverity (summary body)
    = match anomalies body with
      | [] => None
      | first :: _ => Some (severity first)
      end /\
  types (summary body) = first_occurrences (map type (anomalies body)).
Proof.
  intros HPOST.
  apply POST_Ok200 in HPOST
    as (rb & tk & current & history & _ & _ & _ & _ & _ & _ & _ & _ & Hsum).
  rewrite Hsum. unfold summarize. simpl. repeat split.
  - destruct (anomalies body); simpl; [discriminate | intros _; discriminate].
  - destruct (anomalies body); simpl; [congruence | reflexivity].
  - destruct (anomalies body); reflexivity.
  - apply typesOf_first_occurrences.
Qed.

Lemma summary_of_findings_witness :
  (true = true <-> anomalies (body_of (POST sample_clock jump_request)) <> []) /\
  Some critical
    = match anomalies (body_of (POST sample_clock jump_request)) with
      | [] => None
      | first :: _ => Some (severity first)
      end /\
  [zscore; lof; volume_spike; price_deviation]
    = first_occurrences (map type (anomalies (body_of (POST sample_clock jump_request)))).
Proof.
  apply (summary_of_findings sample_clock jump_request
           (body_of (POST sample_clock jump_request))).
  vm_compute. reflexivity.
Defined.

(** ** C3: determinism *)

(** Decides a goal on a detector by following each of its tests. *)
Ltac by_branches :=
  cbv zeta;
  repeat match goal with
         | |- context [if ?c then _ else _] => destruct c
         end;
  reflexivity.

(** The clock reaches a detector's result through the time stamp only. *)
Lemma detectZScoreAnomaly_untimed t t' cp hp tk th :
  map untimed (olist (detectZScoreAnomaly t cp hp tk th))
  = map untimed (olist (detectZScoreAnomaly t' cp hp tk th)).
Proof.
  unfold detectZScoreAnomaly. by_branches.
Qed.

Lemma detectVolumeSpikeAnomaly_untimed t t' cv hv tk th :
  map untimed (olist (detectVolumeSpikeAnomaly t cv hv tk th))
  = map untimed (olist (detectVolumeSpikeAnomaly t' cv hv tk th)).
Proof.
  unfold detectVolumeSpikeAnomaly. by_branches.
Qed.

Lemma detectPriceDeviation_untimed t t' cp ps tk w th :
  map untimed (olist (detectPriceDeviation t cp ps tk w th))
  = map untimed (olist (detectPriceDeviation t' cp ps tk w th)).
Proof.
  unfold detectPriceDeviation. by_branches.
Qed.

Lemma detectLOFAnomaly_untimed t t' cp cv hd tk th :
  map untimed (olist (detectLOFAnomaly t cp cv hd tk th))
  = map untimed (olist (detectLOFAnomaly t' cp cv hd tk th)).
Proof.
  unfold detectLOFAnomaly. by_branches.
Qed.

Lemma found_at_untimed t1 t2 t3 t4 t1' t2' t3' t4' tk current history :
  map untimed (found_at t1 t2 t3 t4 tk current history)
  = map untimed (found_at t1' t2' t3' t4' tk current history).
Proof.
  unfold found_at. rewrite !map_app.
  rewrite (detectZScoreAnomaly_untimed t1 t1'),
          (detectVolumeSpikeAnomaly_untimed t2 t2'),
          (detectPriceDeviation_untimed t3 t3'),
          (detectLOFAnomaly_untimed t4 t4').
  reflexivity.
Qed.

Lemma summarize_untimed (l l' : list AnomalyResult) :
  map untimed l = map untimed l' -> summarize l = summarize l'.
Proof.
  intros H. unfold summarize. f_equal.
  - now rewrite <- (length_map untimed l), H, length_map.
  - destruct l as [|a l], l' as [|a' l']; try discriminate; [reflexivity|].
    unfold untimed in H. simpl in *. inversion H. congruence.
  - rewrite !typesOf_first_occurrences. f_equal.
    assert (Hmap : forall m, map type m = map untimed_type (map untimed m)).
    { intros m. rewrite map_map. reflexivity. }
    now rewrite (Hmap l), (Hmap l'), H.
Qed.

(** C3.  The answer to a request does not depend on anything but the
    request: two calls on the same request, whatever the clock reads during
    each, give the same outcome and the same findings in the same order,
    with the same kinds, severities, scores and thresholds.  Only the time
    stamps can differ. *)
Theorem evaluate_deterministic (clock clock' : nat -> Z) (request : option RequestBody) :
  outcome (POST clock request) = outcome (POST clock' request).
Proof.
  unfold POST.
  destruct request as [rb|]; [|reflexivity].
  destruct (req_ticker rb) as [tk|]; [|reflexivity].
  destruct (currentData rb) as [current|]; [|reflexivity].
  destruct (historicalData rb) as [[|entries]|]; [reflexivity| |reflexivity].
  destruct (tk =? "")%string; [reflexivity|].
  destruct (rowsOf entries) as [history|]; [|reflexivity].
  destruct (collect_found clock tk current history) as (t1 & t2 & t3 & t4 & H).
  destruct (collect_found clock' tk current history) as (t1' & t2' & t3' & t4' & H').
  destruct (collect clock tk current history) as [found readings].
  destruct (collect clock' tk current history) as [found' readings'].
  simpl in H, H'. subst found found'. simpl.
  assert (Hsorted :
    map untimed (Js.sort by_severity (found_at t1 t2 t3 t4 tk current history))
    = map untimed (Js.sort by_severity (found_at t1' t2' t3' t4' tk current history))).
  { rewrite <- !(sort_map by_severity untimed_by_severity untimed) by reflexivity.
    f_equal. apply found_at_untimed. }
  f_equal.
  - now rewrite <- (length_map untimed), Hsorted, length_map.
  - exact Hsorted.
  - now apply summarize_untimed.
Qed.

(** ** C4: abstention on a short history *)

Lemma collect_short_history (clock : nat -> Z) (tk : string) (current : PriceData)
    (history : list PriceData) :
  (List.length history < 10)%nat -> collect clock tk current history = ([], O).
Proof.
  intros Hlen. unfold collect. cbv zeta.
  unfold detectZScoreAnomaly, detectVolumeSpikeAnomaly, detectPriceDeviation,
    detectLOFAnomaly, deviation_window.
  rewrite !length_map.
  destruct (Nat.ltb_spec (List.length history) 10) as [_|?]; [|lia].
  destruct (Nat.ltb_spec (List.length history) 20) as [_|?]; [|lia].
  reflexivity.
Qed.

(** C4.  A detector given a history shorter than its minimum returns no
    finding: fewer than 10 entries for the z-score and the volume-spike
    detectors, fewer entries than the window (20 in the handler) for the
    price-deviation detector, fewer than 20 for the LOF detector.  So a
    request with a history of fewer than 10 entries, none of which is
    [null], is answered with status 200 and no finding; and so is the
    request with the empty history. *)
Theorem detectors_abstain_on_short_history :
  (forall now cp hp tk th,
      (List.length hp < 10)%nat -> detectZScoreAnomaly now cp hp tk th = None) /\
  (forall now cv hv tk th,
      (List.length hv < 10)%nat -> detectVolumeSpikeAnomaly now cv hv tk th = None) /\
  (forall now cp ps tk w th,
      (List.length ps < w)%nat -> detectPriceDeviation now cp ps tk w th = None) /\
  (forall now cp cv hd tk th,
      (List.length hd < 20)%nat -> detectLOFAnomaly now cp cv hd tk th = None) /\
  (forall clock tk current history,
      tk <> ""%string -> (List.length history < 10)%nat ->
      POST clock (Some (mkRequestBody (Some tk) (Some current) (objects history)))
      = Ok200 (mkResponseBody tk (clock O) 0 [] (mkSummary false None []))) /\
  (forall clock tk current,
      tk <> ""%string ->
      POST clock (Some (mkRequestBody (Some tk) (Some current) (Some (ArrayOf []))))
      = Ok200 (mkResponseBody tk (clock O) 0 [] (mkSummary false None []))).
Proof.
  assert (Hpost : forall clock tk current history,
      tk <> ""%string -> (List.length history < 10)%nat ->
      POST clock (Some (mkRequestBody (Some tk) (Some current) (objects history)))
      = Ok200 (mkResponseBody tk (clock O) 0 [] (mkSummary false None []))).
  { intros clock tk current history Htk Hlen.
    rewrite (POST_readable clock _ tk current history);
      [|reflexivity | exact Htk | reflexivity | apply rowsOf_objects].
    now rewrite collect_short_history. }
  repeat split.
  - intros now cp hp tk th Hlen. unfold detectZScoreAnomaly.
    now destruct (Nat.ltb_spec (List.length hp) 10) as [_|?]; [|lia].
  - intros now cv hv tk th Hlen. unfold detectVolumeSpikeAnomaly.
    now destruct (Nat.ltb_spec (List.length hv) 10) as [_|?]; [|lia].
  - intros now cp ps tk w th Hlen. unfold detectPriceDeviation.
    now destruct (Nat.ltb_spec (List.length ps) w) as [_|?]; [|lia].
  - intros now cp cv hd tk th Hlen. unfold detectLOFAnomaly.
    now destruct (Nat.ltb_spec (List.length hd) 20) as [_|?]; [|lia].
  - exact Hpost.
  - intros clock tk current Htk. apply (Hpost clock tk current []); [exact Htk | simpl; lia].
Qed.

Lemma detectors_abstain_on_short_history_witness :
  detectZScoreAnomaly 0 130 (firstn 9 (pricesOf steady_history)) "X" 2.5 = None /\
  detectVolumeSpikeAnomaly 0 12000 (firstn 9 (volumesOf steady_history)) "X" 3 = None /\
  detectPriceDeviation 0 130 (firstn 19 (pricesOf steady_history)) "X" 20 5 = None /\
  detectLOFAnomaly 0 130 1000 (firstn 19 (pointsOf steady_history)) "X" 1.5 = None /\
  POST sample_clock (request_for (observation 106 4000) (firstn 9 steady_history))
  = Ok200 (mkResponseBody "BTCUSDT" (sample_clock O) 0 [] (mkSummary false None [])) /\
  POST sample_clock (request_for (observation 106 4000) [])
  = Ok200 (mkResponseBody "BTCUSDT" (sample_clock O) 0 [] (mkSummary false None [])).
Proof.
  destruct detectors_abstain_on_short_history
    as (Hzscore & Hvolume & Hdeviation & Hlof & Hshort & Hempty).
  split; [|split; [|split; [|split; [|split]]]].
  - apply Hzscore. simpl. lia.
  - apply Hvolume. simpl. lia.
  - apply Hdeviation. simpl. lia.
  - apply Hlof. simpl. lia.
  - apply Hshort; [discriminate | simpl; lia].
  - apply Hempty. discriminate.
Defined.

(** The minimum lengths are exact: at 9 (resp. 19) entries a detector is
    silent, at 10 (resp. 20) the same jump is reported. *)
Example zscore_boundary :
  detectZScoreAnomaly 0 130 (firstn 9 (pricesOf steady_history)) "X" 2.5 = None /\
  option_map severity
    (detectZScoreAnomaly 0 130 (firstn 10 (pricesOf steady_history)) "X" 2.5)
  = Some critical.
Proof. split; vm_compute; reflexivity. Qed.

Example volume_boundary :
  detectVolumeSpikeAnomaly 0 12000 (firstn 9 (volumesOf steady_history)) "X" 3 = None /\
  option_map (fun a => (severity a, score a))
    (detectVolumeSpikeAnomaly 0 12000 (firstn 10 (volumesOf steady_history)) "X" 3)
  = Some (critical, 12).
Proof. split; vm_compute; reflexivity. Qed.

Example deviation_boundary :
  detectPriceDeviation 0 130 (firstn 19 (pricesOf steady_history)) "X" 20 5 = None /\
  option_map severity
    (detectPriceDeviation 0 130 (pricesOf steady_history) "X" 20 5)
  = Some critical.
Proof. split; vm_compute; reflexivity. Qed.

Example lof_boundary :
  detectLOFAnomaly 0 130 1000
    (firstn 19 (pointsOf steady_history)) "X" 1.5
  = None /\
  option_map severity
    (detectLOFAnomaly 0 130 1000 (pointsOf steady_history) "X" 1.5)
  = Some critical.
Proof. split; vm_compute; reflexivity. Qed.

(** ** C5: the mean of an empty sequence *)

(** The helper of the route returns a number in every case: on the empty
    sequence it is [0 / 0]. *)
Lemma mean_of_empty_is_NaN :
  mean [] = nan /\ is_nan (mean []) = true /\ mean_spec [] = EmptyInputError.
Proof. repeat split; vm_compute; reflexivity. Qed.

Lemma eqb_true_cases (a b : float) : (a =? b) = true -> a = b \/ both_zero a b.
Proof.
  rewrite FloatAxioms.eqb_spec. unfold SFeqb, both_zero.
  destruct (Prim2SF a) as [sa|sa| |sa ma ea] eqn:Ea;
    destruct (Prim2SF b) as [sb|sb| |sb mb eb] eqn:Eb; simpl;
    try discriminate; try (destruct sa; discriminate); try (destruct sb; discriminate).
  - right. eauto.
  - intros H. left. apply Prim2SF_inj. rewrite Ea, Eb.
    destruct sa, sb; try discriminate; reflexivity.
  - intros H. left. apply Prim2SF_inj. rewrite Ea, Eb.
    destruct sa, sb; try discriminate;
      destruct (Z.compare_spec ea eb) as [->| |]; try discriminate;
      rewrite Pos.compare_cont_spec in H; simpl in H;
      destruct (Pos.compare_spec ma mb) as [->| |]; try discriminate;
      reflexivity.
Qed.

Lemma both_zero_same (a b : float) : both_zero a b -> same_number a b.
Proof.
  intros (s & s' & Ea & Eb). right.
  rewrite FloatAxioms.eqb_spec, Ea, Eb. reflexivity.
Qed.

(** [same_number] relates equal floats and the two zeros, nothing else. *)
Lemma same_number_cases (a b : float) : same_number a b <-> a = b \/ both_zero a b.
Proof.
  split.
  - intros [H|H]; [now left | now apply eqb_true_cases].
  - intros [H|H]; [now left | now apply both_zero_same].
Qed.

Lemma add_zero_l (x : float) : 0 + x = x \/ both_zero (0 + x) x.
Proof.
  pose proof (add_spec 0 x) as H. unfold SF64add, SFadd in H.
  replace (Prim2SF 0) with (S754_zero false) in H by reflexivity.
  destruct (Prim2SF x) as [[|]|[|]| |s m e] eqn:Ex;
    try (left; apply Prim2SF_inj; congruence).
  right. exists false, true. auto.
Qed.

Lemma add_both_zero (a b y : float) :
  both_zero a b -> a + y = b + y \/ both_zero (a + y) (b + y).
Proof.
  intros (s & s' & Ea & Eb).
  pose proof (add_spec a y) as Ha. pose proof (add_spec b y) as Hb.
  unfold SF64add, SFadd in Ha, Hb. rewrite Ea in Ha. rewrite Eb in Hb.
  destruct (Prim2SF y) as [sy|sy| |sy m e] eqn:Ey;
    try (left; apply Prim2SF_inj; congruence).
  right. unfold both_zero.
  destruct s, s', sy; eauto.
Qed.

Lemma div_both_zero (a b y : float) :
  both_zero a b -> a / y = b / y \/ both_zero (a / y) (b / y).
Proof.
  intros (s & s' & Ea & Eb).
  pose proof (div_spec a y) as Ha. pose proof (div_spec b y) as Hb.
  unfold SF64div, SFdiv in Ha, Hb. rewrite Ea in Ha. rewrite Eb in Hb.
  destruct (Prim2SF y) as [sy|sy| |sy m e] eqn:Ey;
    try (left; apply Prim2SF_inj; congruence);
    right; unfold both_zero; eauto.
Qed.

Lemma fold_add_same (xs : list float) (a b : float) :
  a = b \/ both_zero a b ->
  fold_left PrimFloat.add xs a = fold_left PrimFloat.add xs b \/
  both_zero (fold_left PrimFloat.add xs a) (fold_left PrimFloat.add xs b).
Proof.
  revert a b. induction xs as [|y xs IH]; intros a b H; simpl; [exact H|].
  apply IH. destruct H as [->|H]; [now left | now apply add_both_zero].
Qed.

(** C5, amended.  [mean] raises no error.  On a non-empty sequence it
    returns the arithmetic mean: the sum of the elements, added from left to
    right, divided by their number (as a number: the sum of the route starts
    from [+0], which can only turn a [-0] into [+0]).  On the empty sequence
    it returns [NaN]. *)
Theorem mean_is_mean_or_NaN (xs : list float) :
  match mean_spec xs with
  | MeanOf m => same_number (mean xs) m
  | EmptyInputError => mean xs = nan
  end.
Proof.
  destruct xs as [|x rest]; simpl.
  - vm_compute. reflexivity.
  - unfold mean, sum. simpl fold_left.
    destruct (fold_add_same rest (0 + x) x (add_zero_l x)) as [->|H].
    + now left.
    + destruct (div_both_zero _ _ (Js.length (x :: rest)) H) as [->|H'].
      * now left.
      * now apply both_zero_same.
Qed.

Example mean_of_four : mean [1; 2; 3; 4] = 2.5.
Proof. vm_compute. reflexivity. Qed.

(** ** C6: missing fields *)

(** The request without a current price is answered with status 200: the
    detectors that read the price see [NaN] and stay silent, the volume
    spike is reported.  In a history the absent price makes the mean [NaN],
    and the [null] volume enters the mean as 0. *)
Lemma missing_price_is_not_reported :
  has_hole priceless_request = true /\
  is_error (POST sample_clock (Some priceless_request)) = false /\
  outcome (POST sample_clock (Some priceless_request))
  = Answered "BTCUSDT" 1 [(volume_spike, medium, 4, 3, "BTCUSDT"%string)]
      (mkSummary true (Some medium) [volume_spike]) /\
  mean (pricesOf holed_history) = nan /\
  mean (volumesOf holed_history) = mean (0 :: 1000 :: volumesOf steady_history).
Proof. repeat split; vm_compute; reflexivity. Qed.

Lemma zscore_silent_on_absent_price now hp tk th :
  detectZScoreAnomaly now (Js.ToNumber Js.Undefined) hp tk th = None.
Proof.
  unfold detectZScoreAnomaly. simpl Js.ToNumber.
  destruct (_ <? _)%nat; [reflexivity|]. cbv zeta.
  destruct (_ =? _); [reflexivity|].
  rewrite sub_nan_l, div_nan_l.
  replace (abs nan) with nan by reflexivity.
  now rewrite gt_nan_l.
Qed.

Lemma deviation_silent_on_absent_price now ps tk w th :
  detectPriceDeviation now (Js.ToNumber Js.Undefined) ps tk w th = None.
Proof.
  unfold detectPriceDeviation. simpl Js.ToNumber.
  destruct (_ <? _)%nat; [reflexivity|]. cbv zeta.
  rewrite sub_nan_l, div_nan_l, mul_nan_l.
  replace (abs nan) with nan by reflexivity.
  now rewrite gt_nan_l.
Qed.

Lemma volume_silent_on_absent_volume now hv tk th :
  detectVolumeSpikeAnomaly now (Js.ToNumber Js.Undefined) hv tk th = None.
Proof.
  unfold detectVolumeSpikeAnomaly. simpl Js.ToNumber.
  destruct (_ <? _)%nat; [reflexivity|]. cbv zeta.
  now rewrite div_nan_l, gt_nan_l.
Qed.

(** C6, amended.  A request in which the ticker, the current observation or
    the history is missing as a whole (the ticker may also not be empty) is
    refused at once with status 400 and the one message 'Missing required
    data', whichever of the three is missing.  A price or a volume that is
    absent or [null], in the current observation or in an entry of the
    history, is not looked for: when the history is an array without a
    [null] entry the request is answered with status 200, whatever prices
    and volumes are missing.  A history that is no array, or that has a
    [null] entry, is answered with status 500 and the one message 'Anomaly
    detection failed'. *)
Theorem missing_data_refused_without_detail (clock : nat -> Z) (rb : RequestBody) :
  if top_level_present rb
  then match readable rb with
       | Some history => exists body, POST clock (Some rb) = Ok200 body
       | None => POST clock (Some rb) = Error500 "Anomaly detection failed"
       end
  else POST clock (Some rb) = Error400 "Missing required data".
Proof.
  unfold top_level_present.
  destruct (req_ticker rb) as [tk|] eqn:Etk; cbn [negb andb];
    [|unfold POST; now rewrite Etk].
  destruct (String.eqb_spec tk "") as [->|Hne]; cbn [negb andb].
  - unfold POST. rewrite Etk.
    destruct (currentData rb), (historicalData rb); reflexivity.
  - destruct (currentData rb) as [current|] eqn:Ecur; cbn [negb andb];
      [|unfold POST; now rewrite Etk, Ecur].
    destruct (historicalData rb) as [history|] eqn:Ehist; cbn [negb andb];
      [|unfold POST; now rewrite Etk, Ecur, Ehist].
    destruct (readable rb) as [rows|] eqn:Eread.
    + rewrite (POST_readable clock rb tk current rows) by assumption. eauto.
    + now apply (POST_unreadable clock rb tk current history).
Qed.

Example missing_ticker_refused :
  POST sample_clock
    (Some (mkRequestBody None (Some (observation 106 4000)) (objects steady_history)))
  = Error400 "Missing required data" /\
  POST sample_clock (Some (mkRequestBody (Some "BTCUSDT"%string) None (objects steady_history)))
  = Error400 "Missing required data" /\
  POST sample_clock
    (Some (mkRequestBody (Some "BTCUSDT"%string) (Some (observation 106 4000)) None))
  = Error400 "Missing required data".
Proof. repeat split. Qed.

(** A history with a [null] entry, and one that is no array, are answered
    with status 500, also when the history is too short for any detector. *)
Example unreadable_history_fails :
  POST sample_clock
    (Some (mkRequestBody (Some "BTCUSDT"%string) (Some (observation 106 4000))
             (Some (ArrayOf [NullEntry]))))
  = Error500 "Anomaly detection failed" /\
  POST sample_clock
    (Some (mkRequestBody (Some "BTCUSDT"%string) (Some (observation 106 4000))
             (Some (ArrayOf (map Row steady_history ++ [NullEntry])))))
  = Error500 "Anomaly detection failed" /\
  POST sample_clock
    (Some (mkRequestBody (Some "BTCUSDT"%string) (Some (observation 106 4000))
             (Some NotArray)))
  = Error500 "Anomaly detection failed".
Proof. repeat split. Qed.

(** ** C7: volume spike over a history of zero volumes *)

(** C7.  Ten historical volumes of 0 have mean 0; the detector divides the
    current volume by it without a test.  For a current volume of 5 the
    ratio is [Infinity] and is returned as the score of a critical finding;
    for a current volume of 0 the ratio is [NaN] and nothing is returned. *)
Theorem volume_spike_divides_by_zero_mean :
  mean (repeat 0 10) = 0 /\
  detectVolumeSpikeAnomaly 0 5 (repeat 0 10) "X" volume_threshold
  = Some (mkAnomalyResult volume_spike critical infinity 3 0 "X") /\
  0 / mean (repeat 0 10) = nan /\
  detectVolumeSpikeAnomaly 0 0 (repeat 0 10) "X" volume_threshold = None.
Proof. repeat split; vm_compute; reflexivity. Qed.

(** ** C8: z-score on a constant price series *)

(** C8.  Ten prices of 0.1: their sum is rounded at each addition, the mean
    comes out one unit in the last place below 0.1, and the standard
    deviation is about 1.4e-17 instead of 0.  The test [std === 0] fails and
    a current price of 0.11 is reported as a critical finding. *)
Theorem zscore_fires_on_constant_series :
  mean (repeat one_tenth 10) = 0x1.9999999999999p-4 /\
  (standardDeviation (repeat one_tenth 10) =? 0) = false /\
  option_map (fun a => (type a, severity a))
    (detectZScoreAnomaly 0 0x1.c28f5c28f5c29p-4 (repeat one_tenth 10) "X" zscore_threshold)
  = Some (zscore, critical).
Proof. repeat split; vm_compute; reflexivity. Qed.

Lemma zscore_silent_when_mean_exact (now : Z) (cp c : float) (n : nat)
    (tk : string) (th : float) :
  is_finite c = true -> mean (repeat c n) = c ->
  detectZScoreAnomaly now cp (repeat c n) tk th = None.
Proof.
  intros Hc Hmean. unfold detectZScoreAnomaly.
  destruct (_ <? _)%nat; [reflexivity|]. cbv zeta.
  assert (Hstd : Js.falsy (standardDeviation (repeat c n)) = true).
  { unfold standardDeviation. cbv zeta. rewrite Hmean, map_repeat.
    unfold Js.pow2. rewrite finite_sub_self by assumption.
    replace (0 * 0) with 0 by reflexivity.
    apply sqrt_zero_or_nan. unfold mean. rewrite sum_zeros.
    apply falsy_zero_div. }
  unfold Js.falsy in Hstd. apply orb_true_iff in Hstd as [Hz|Hnan].
  - now rewrite Hz.
  - apply is_nan_spec in Hnan. rewrite Hnan.
    replace (nan =? 0) with false by reflexivity.
    rewrite div_nan_r. replace (abs nan) with nan by reflexivity.
    destruct (Js.gt nan th) eqn:E; [|reflexivity].
    apply gt_not_nan in E. discriminate.
Qed.

Example zscore_silent_at_100 :
  mean (repeat 100 20) = 100 /\
  detectZScoreAnomaly 0 130 (repeat 100 20) "X" zscore_threshold = None.
Proof. split; vm_compute; reflexivity. Qed.

(** ** C9: the LOF detector on a constant history *)

Lemma lofScoreOf_constant (cp cv p v : float) (n : nat) :
  is_finite p = true -> is_finite v = true -> (6 <= n)%nat ->
  lofScoreOf cp cv (repeat (p, v) n) = mean (repeat (offset cp cv p v) 5) / 1.
Proof.
  intros Hp Hv Hn. unfold lofScoreOf. cbv zeta.
  rewrite !map_repeat, repeat_length. simpl fst. simpl snd.
  destruct n as [|m]; [lia|].
  rewrite !Math_min_repeat, !Math_max_repeat.
  unfold normalize, span. simpl fst. simpl snd.
  rewrite !finite_sub_self by assumption.
  replace (Js.or_else 0 1) with 1 by reflexivity.
  replace (0 / 1) with 0 by reflexivity.
  replace (Nat.min 5 (S m - 1)) with 5%nat by lia.
  rewrite mean_five by lia.
  rewrite kDistancesOf_constant by lia.
  unfold mean at 2. rewrite sum_zeros.
  unfold Js.or_else at 1. rewrite falsy_zero_div.
  reflexivity.
Qed.

(** With the current price at 1e200 (read as the nearest binary64 value)
    the squared distance overflows: the finding carries the score
    [Infinity]. *)
Lemma lof_score_can_be_infinite :
  detectLOFAnomaly 0 0x1.4e718d7d7625ap+664 1000 flat_history "X" 1.5
  = Some (mkAnomalyResult lof critical infinity 1.5 0 "X") /\
  is_finite infinity = false.
Proof. split; vm_compute; reflexivity. Qed.

(** C9, amended.  On a history of at least 20 entries, all at the same
    finite price and the same finite volume, and for any current price and
    volume, the LOF detector divides by 1 three times (both ranges and the
    average historical k-distance are zero): its score is the mean of five
    copies of the distance of the current point from the constant one.  It
    returns no finding, or a finding with that score, which is above the
    threshold and is not [NaN].  (It is [Infinity] when the distance
    overflows.) *)
Theorem lof_on_constant_history
    (now : Z) (cp cv p v : float) (n : nat) (tk : string) (th : float) :
  is_finite p = true -> is_finite v = true -> (20 <= n)%nat ->
  lofScoreOf cp cv (repeat (p, v) n) = mean (repeat (offset cp cv p v) 5) / 1 /\
  (detectLOFAnomaly now cp cv (repeat (p, v) n) tk th = None \/
   exists a, detectLOFAnomaly now cp cv (repeat (p, v) n) tk th = Some a /\
             score a = mean (repeat (offset cp cv p v) 5) / 1 /\
             Js.gt (score a) th = true /\
             is_nan (score a) = false).
Proof.
  intros Hp Hv Hn.
  assert (Hscore := lofScoreOf_constant cp cv p v n Hp Hv ltac:(lia)).
  split; [exact Hscore|].
  destruct (detectLOFAnomaly now cp cv (repeat (p, v) n) tk th) as [a|] eqn:E;
    [right|now left].
  exists a. split; [reflexivity|].
  pose proof (detectLOFAnomaly_Some _ _ _ _ _ _ _ E) as (_ & _ & _ & _ & _ & Hgt).
  split; [|split].
  - rewrite (detectLOFAnomaly_score _ _ _ _ _ _ _ E). exact Hscore.
  - exact Hgt.
  - now apply gt_not_nan with (t := th).
Qed.

Lemma lof_on_constant_history_witness :
  lofScoreOf 130 1000 (repeat (50, 1000) 20)
  = mean (repeat (offset 130 1000 50 1000) 5) / 1 /\
  (detectLOFAnomaly 0 130 1000 (repeat (50, 1000) 20) "X" 1.5 = None \/
   exists a, detectLOFAnomaly 0 130 1000 (repeat (50, 1000) 20) "X" 1.5 = Some a /\
             score a = mean (repeat (offset 130 1000 50 1000) 5) / 1 /\
             Js.gt (score a) 1.5 = true /\
             is_nan (score a) = false).
Proof.
  apply (lof_on_constant_history 0 130 1000 50 1000 20 "X" 1.5).
  - vm_compute. reflexivity.
  - vm_compute. reflexivity.
  - lia.
Defined.

Example lof_flat_history_score :
  option_map score (detectLOFAnomaly 0 130 1000 flat_history "X" 1.5) = Some 80 /\
  detectLOFAnomaly 0 50 1000 flat_history "X" 1.5 = None.
Proof. split; vm_compute; reflexivity. Qed.

(** ** C10: a finding's score exceeds its threshold *)

Lemma emitted_exceeds (a : AnomalyResult) :
  emitted a -> Js.gt (score a) (threshold a) = true.
Proof.
  intros [now cp hp tk th E | now cv hv tk th E
         | now cp ps tk w th E | now cp cv hd tk th E].
  - apply detectZScoreAnomaly_Some in E as (_ & -> & _ & _ & _ & H). exact H.
  - apply detectVolumeSpikeAnomaly_Some in E as (_ & -> & _ & _ & _ & H). exact H.
  - apply detectPriceDeviation_Some in E as (_ & -> & _ & _ & _ & H). exact H.
  - apply detectLOFAnomaly_Some in E as (_ & -> & _ & _ & _ & H). exact H.
Qed.

Lemma default_threshold_positive (k : Kind) : Js.gt (default_threshold k) 0 = true.
Proof. destruct k; reflexivity. Qed.

(** C10.  Every finding a detector returns has a score strictly above the
    threshold recorded in it; when that threshold is the detector's default
    (2.5, 3, 5 or 1.5), the score is strictly positive. *)
Theorem score_exceeds_threshold (a : AnomalyResult) :
  emitted a ->
  Js.gt (score a) (threshold a) = true /\
  (threshold a = default_threshold (type a) -> Js.gt (score a) 0 = true).
Proof.
  intros Ha. pose proof (emitted_exceeds a Ha) as Hgt.
  split; [exact Hgt|].
  intros Hth. apply gt_positive with (t := threshold a); [|exact Hgt].
  rewrite Hth. apply default_threshold_positive.
Qed.

Lemma score_exceeds_threshold_witness :
  Js.gt 12 3 = true /\
  (3 = default_threshold volume_spike -> Js.gt 12 0 = true).
Proof.
  apply (score_exceeds_threshold (mkAnomalyResult volume_spike critical 12 3 0 "X")).
  apply (emitted_volume_spike _ 0%Z 12000 (volumesOf steady_history) "X"%string 3).
  vm_compute. reflexivity.
Defined.

(** The findings of an answer are findings of the detectors at their
    default thresholds. *)
Lemma POST_findings_emitted (clock : nat -> Z) (request : option RequestBody)
    (body : ResponseBody) (a : AnomalyResult) :
  POST clock request = Ok200 body -> In a (anomalies body) ->
  emitted a /\ threshold a = default_threshold (type a).
Proof.
  intros HPOST Hin.
  apply POST_Ok200 in HPOST
    as (rb & tk & current & history & _ & _ & _ & _ & _ & _ & Hsorted & _).
  destruct (collect_found clock tk current history) as (t1 & t2 & t3 & t4 & Hfound).
  rewrite Hsorted, Hfound in Hin. apply In_sort in Hin.
  unfold found_at in Hin. rewrite !in_app_iff in Hin.
  destruct Hin as [Hin|[Hin|[Hin|Hin]]];
    match type of Hin with
    | In _ (olist ?d) => destruct d as [a'|] eqn:E; simpl in Hin; [|contradiction]
    end;
    destruct Hin as [->|[]].
  - split; [eapply emitted_zscore; exact E|].
    apply detectZScoreAnomaly_Some in E as (-> & -> & _). reflexivity.
  - split; [eapply emitted_volume_spike; exact E|].
    apply detectVolumeSpikeAnomaly_Some in E as (-> & -> & _). reflexivity.
  - split; [eapply emitted_price_deviation; exact E|].
    apply detectPriceDeviation_Some in E as (-> & -> & _). reflexivity.
  - split; [eapply emitted_lof; exact E|].
    apply detectLOFAnomaly_Some in E as (-> & -> & _). reflexivity.
Qed.

(** Hence every finding of an answer has a score above its threshold, which
    is positive and not [NaN]. *)
Lemma POST_scores (clock : nat -> Z) (request : option RequestBody)
    (body : ResponseBody) (a : AnomalyResult) :
  POST clock request = Ok200 body -> In a (anomalies body) ->
  Js.gt (score a) (threshold a) = true /\ Js.gt (score a) 0 = true /\
  is_nan (score a) = false.
Proof.
  intros HPOST Hin.
  destruct (POST_findings_emitted clock request body a HPOST Hin) as [Ha Hth].
  pose proof (emitted_exceeds a Ha) as Hgt.
  repeat split; [exact Hgt| |now apply gt_not_nan with (t := threshold a)].
  apply gt_positive with (t := threshold a); [|exact Hgt].
  rewrite Hth. apply default_threshold_positive.
Qed.

(** * Further properties of the route and of the dashboard *)

(** The comparison of the binary64 specification is transitive. *)
Lemma SFcompare_Lt_trans (x y z : spec_float) :
  SFcompare x y = Some Lt -> SFcompare y z = Some Lt -> SFcompare x z = Some Lt.
Proof.
  destruct x as [sx|sx| |sx mx ex], y as [sy|sy| |sy my ey], z as [sz|sz| |sz mz ez];
    simpl; try discriminate;
    try (destruct sx; try discriminate); try (destruct sy; try discriminate);
    try (destruct sz; try discriminate); try reflexivity;
    rewrite ?Pos.compare_cont_spec; simpl;
    intros Hxy Hyz;
    destruct (Z.compare_spec ex ey); try discriminate;
    destruct (Z.compare_spec ey ez); try discriminate;
    destruct (Z.compare_spec ex ez); try lia; try reflexivity;
    destruct (Pos.compare_spec mx my); try discriminate;
    destruct (Pos.compare_spec my mz); try discriminate;
    destruct (Pos.compare_spec mx mz); try lia; try reflexivity.
Qed.

Lemma SFcompare_Lt_Eq_trans (x y z : spec_float) :
  SFcompare x y = Some Lt -> SFcompare y z = Some Eq -> SFcompare x z = Some Lt.
Proof.
  destruct x as [sx|sx| |sx mx ex], y as [sy|sy| |sy my ey], z as [sz|sz| |sz mz ez];
    simpl; try discriminate;
    try (destruct sx; try discriminate); try (destruct sy; try discriminate);
    try (destruct sz; try discriminate); try reflexivity;
    rewrite ?Pos.compare_cont_spec; simpl;
    intros Hxy Hyz;
    destruct (Z.compare_spec ex ey); try discriminate;
    destruct (Z.compare_spec ey ez); try discriminate;
    destruct (Z.compare_spec ex ez); try lia; try reflexivity;
    destruct (Pos.compare_spec mx my); try discriminate;
    destruct (Pos.compare_spec my mz); try discriminate;
    destruct (Pos.compare_spec mx mz); try lia; try reflexivity.
Qed.

Lemma ltb_trans (x y z : float) :
  (x <? y) = true -> (y <? z) = true -> (x <? z) = true.
Proof.
  rewrite !FloatAxioms.ltb_spec. unfold SFltb.
  destruct (SFcompare (Prim2SF x) (Prim2SF y)) as [[| |]|] eqn:Exy; try discriminate.
  destruct (SFcompare (Prim2SF y) (Prim2SF z)) as [[| |]|] eqn:Eyz; try discriminate.
  now rewrite (SFcompare_Lt_trans _ _ _ Exy Eyz).
Qed.

Lemma ltb_leb_trans (x y z : float) :
  (x <? y) = true -> (y <=? z) = true -> (x <? z) = true.
Proof.
  rewrite !FloatAxioms.ltb_spec, FloatAxioms.leb_spec. unfold SFltb, SFleb.
  destruct (SFcompare (Prim2SF x) (Prim2SF y)) as [[| |]|] eqn:Exy; try discriminate.
  destruct (SFcompare (Prim2SF y) (Prim2SF z)) as [[| |]|] eqn:Eyz; try discriminate.
  - now rewrite (SFcompare_Lt_Eq_trans _ _ _ Exy Eyz).
  - now rewrite (SFcompare_Lt_trans _ _ _ Exy Eyz).
Qed.

Lemma gt_leb (s1 s2 t : float) :
  Js.gt s1 t = true -> (s1 <=? s2) = true -> Js.gt s2 t = true.
Proof. unfold Js.gt. apply ltb_leb_trans. Qed.

(** Buckets given by three descending cuts. *)
Lemma buckets_monotone (c3 c2 c1 s1 s2 : float) :
  (s1 <=? s2) = true ->
  (severityOrder (if Js.gt s2 c3 then critical else if Js.gt s2 c2 then high
                  else if Js.gt s2 c1 then medium else low)
   <= severityOrder (if Js.gt s1 c3 then critical else if Js.gt s1 c2 then high
                     else if Js.gt s1 c1 then medium else low))%Z.
Proof.
  intros Hle.
  destruct (Js.gt s1 c3) eqn:H3; [rewrite (gt_leb _ _ _ H3 Hle); simpl; lia|].
  destruct (Js.gt s1 c2) eqn:H2;
    [rewrite (gt_leb _ _ _ H2 Hle); destruct (Js.gt s2 c3); simpl; lia|].
  destruct (Js.gt s1 c1) eqn:H1;
    [rewrite (gt_leb _ _ _ H1 Hle); destruct (Js.gt s2 c3), (Js.gt s2 c2); simpl; lia|].
  destruct (Js.gt s2 c3), (Js.gt s2 c2), (Js.gt s2 c1); simpl; lia.
Qed.

Lemma emitted_bucket (a : AnomalyResult) :
  emitted a -> severity a = bucket (type a) (score a).
Proof.
  intros [now cp hp tk th E | now cv hv tk th E
         | now cp ps tk w th E | now cp cv hd tk th E].
  - now apply detectZScoreAnomaly_Some in E as (-> & _ & _ & _ & -> & _).
  - now apply detectVolumeSpikeAnomaly_Some in E as (-> & _ & _ & _ & -> & _).
  - now apply detectPriceDeviation_Some in E as (-> & _ & _ & _ & -> & _).
  - now apply detectLOFAnomaly_Some in E as (-> & _ & _ & _ & -> & _).
Qed.

(** X6.  Of two findings of the same detector, the one with the larger
    score is at least as severe ([severityOrder] counts down from low 3 to
    critical 0). *)
Theorem severity_monotone_in_score (a b : AnomalyResult) :
  emitted a -> emitted b -> type a = type b ->
  (score a <=? score b) = true ->
  (severityOrder (severity b) <= severityOrder (severity a))%Z.
Proof.
  intros Ha Hb Hk Hle.
  rewrite (emitted_bucket a Ha), (emitted_bucket b Hb), <- Hk.
  destruct (type a); simpl;
    unfold zscore_severity, volume_severity, deviation_severity, lof_severity;
    now apply buckets_monotone.
Qed.

Lemma severity_monotone_in_score_witness :
  (severityOrder (severity (mkAnomalyResult volume_spike critical 12 3 0 "X"))
   <= severityOrder (severity (mkAnomalyResult volume_spike medium 4 3 0 "X")))%Z.
Proof.
  apply severity_monotone_in_score.
  - apply (emitted_volume_spike _ 0%Z 4000 (volumesOf steady_history) "X"%string 3).
    vm_compute. reflexivity.
  - apply (emitted_volume_spike _ 0%Z 12000 (volumesOf steady_history) "X"%string 3).
    vm_compute. reflexivity.
  - reflexivity.
  - vm_compute. reflexivity.
Defined.

(** ** The answer and the detectors' findings *)

Lemma insert_Permutation {A} (after : A -> A -> bool) (x : A) (s : list A) :
  Permutation (Js.insert after x s) (x :: s).
Proof.
  induction s as [|y s IH]; simpl; [reflexivity|].
  destruct (after x y); [|reflexivity].
  rewrite IH. apply perm_swap.
Qed.

Lemma sort_Permutation {A} (after : A -> A -> bool) (l : list A) :
  Permutation (Js.sort after l) l.
Proof.
  induction l as [|x l IH]; simpl; [reflexivity|].
  rewrite insert_Permutation. now constructor.
Qed.

Lemma length_olist {A} (o : option A) : (List.length (olist o) <= 1)%nat.
Proof. destruct o; simpl; lia. Qed.

Lemma length_found_at t1 t2 t3 t4 tk current history :
  (List.length (found_at t1 t2 t3 t4 tk current history) <= 4)%nat.
Proof.
  unfold found_at. rewrite !length_app.
  repeat match goal with
         | |- context [List.length (olist ?o)] =>
             let H := fresh in pose proof (length_olist o) as H;
             generalize dependent (List.length (olist o)); intros
         end.
  lia.
Qed.

Lemma called_before_NoDup (l : list AnomalyResult) :
  StronglySorted called_before l -> NoDup (map type l).
Proof.
  induction 1 as [|x l Hl IH Hx]; simpl; constructor; [|exact IH].
  intros Hin. apply in_map_iff in Hin as (y & Hy & Hin).
  rewrite Forall_forall in Hx. specialize (Hx y Hin).
  unfold called_before in Hx. rewrite Hy in Hx. lia.
Qed.

Lemma first_occurrences_NoDup (ks : list Kind) :
  NoDup ks -> first_occurrences ks = ks.
Proof.
  induction 1 as [|k ks Hk Hks IH]; simpl; [reflexivity|].
  rewrite IH. f_equal.
  clear IH Hks. induction ks as [|k' ks IH]; simpl; [reflexivity|].
  destruct (Kind_eqb k' k) eqn:E.
  - apply Kind_eqb_eq in E. subst. exfalso. apply Hk. now left.
  - simpl. f_equal. apply IH. intros H. apply Hk. now right.
Qed.

(** The request behind a successful answer, and what was collected for it. *)
Lemma POST_answer (clock : nat -> Z) (request : option RequestBody) (body : ResponseBody) :
  POST clock request = Ok200 body ->
  exists rb tk current history t1 t2 t3 t4,
    request = Some rb /\ req_ticker rb = Some tk /\
    currentData rb = Some current /\ readable rb = Some history /\
    res_ticker body = tk /\
    fst (collect clock tk current history) = found_at t1 t2 t3 t4 tk current history /\
    anomalies body = Js.sort by_severity (found_at t1 t2 t3 t4 tk current history).
Proof.
  intros H. apply POST_Ok200 in H
    as (rb & tk & current & history & Hreq & Htk & _ & Hcur & Hhist & Hres & Hsorted & _).
  destruct (collect_found clock tk current history) as (t1 & t2 & t3 & t4 & Hfound).
  exists rb, tk, current, history, t1, t2, t3, t4.
  rewrite Hsorted, Hfound. repeat split; assumption.
Qed.

Lemma answer_count (clock : nat -> Z) (request : option RequestBody) (body : ResponseBody) :
  POST clock request = Ok200 body ->
  anomalyCount body = List.length (anomalies body) /\ (anomalyCount body <= 4)%nat.
Proof.
  intros HPOST.
  destruct (POST_Ok200 clock request body HPOST)
    as (rb0 & tk0 & c0 & h0 & _ & _ & _ & _ & _ & _ & _ & Hcount & _).
  apply POST_answer in HPOST
    as (rb & tk & current & history & t1 & t2 & t3 & t4 & _ & _ & _ & _ & _ & _ & Hsorted).
  split; [exact Hcount|].
  rewrite Hcount, Hsorted, length_sort. apply length_found_at.
Qed.

(** X1.  In every successful answer each detector has at most one finding:
    the kinds of the findings are pairwise distinct, so [types] is the list
    of their kinds as it stands, and [anomalyCount], the number of
    findings, is at most 4. *)
Theorem findings_one_per_detector
    (clock : nat -> Z) (request : option RequestBody) (body : ResponseBody) :
  POST clock request = Ok200 body ->
  NoDup (map type (anomalies body)) /\
  types (summary body) = map type (anomalies body) /\
  anomalyCount body = List.length (anomalies body) /\
  (anomalyCount body <= 4)%nat.
Proof.
  intros HPOST.
  destruct (answer_count clock request body HPOST) as [Hcount H4].
  destruct (POST_Ok200 clock request body HPOST)
    as (rb0 & tk0 & c0 & h0 & _ & _ & _ & _ & _ & _ & _ & _ & Hsum).
  apply POST_answer in HPOST
    as (rb & tk & current & history & t1 & t2 & t3 & t4 & _ & _ & _ & _ & _ & _ & Hsorted).
  assert (Hnodup : NoDup (map type (anomalies body))).
  { rewrite Hsorted.
    eapply Permutation_NoDup;
      [apply Permutation_map, Permutation_sym, sort_Permutation|].
    apply called_before_NoDup, found_at_called_in_order. }
  split; [exact Hnodup|]. split; [|split; [exact Hcount | exact H4]].
  rewrite Hsum. unfold summarize. simpl.
  rewrite typesOf_first_occurrences. now apply first_occurrences_NoDup.
Qed.

Lemma In_olist {A} (a : A) (o : option A) : In a (olist o) <-> o = Some a.
Proof. destruct o; simpl; split; intros H; try congruence; intuition congruence. Qed.

Lemma In_found_at a t1 t2 t3 t4 tk current history :
  In a (found_at t1 t2 t3 t4 tk current history) <->
  detectZScoreAnomaly t1 (Js.ToNumber (price current)) (pricesOf history)
    tk zscore_threshold = Some a \/
  detectVolumeSpikeAnomaly t2 (Js.ToNumber (volume current)) (volumesOf history)
    tk volume_threshold = Some a \/
  detectPriceDeviation t3 (Js.ToNumber (price current)) (pricesOf history)
    tk deviation_window deviation_threshold = Some a \/
  detectLOFAnomaly t4 (Js.ToNumber (price current)) (Js.ToNumber (volume current))
    (pointsOf history) tk lof_threshold = Some a.
Proof. unfold found_at. rewrite !in_app_iff, !In_olist. reflexivity. Qed.

Lemma findings_one_per_detector_witness :
  NoDup (map type (anomalies (body_of (POST sample_clock jump_request)))) /\
  types (summary (body_of (POST sample_clock jump_request)))
  = map type (anomalies (body_of (POST sample_clock jump_request))) /\
  anomalyCount (body_of (POST sample_clock jump_request))
  = List.length (anomalies (body_of (POST sample_clock jump_request))) /\
  (anomalyCount (body_of (POST sample_clock jump_request)) <= 4)%nat.
Proof.
  apply (findings_one_per_detector sample_clock jump_request).
  vm_compute. reflexivity.
Defined.

(** Where a finding of an answer comes from. *)
Lemma POST_finding_origin (clock : nat -> Z) (request : option RequestBody)
    (body : ResponseBody) (a : AnomalyResult) :
  POST clock request = Ok200 body -> In a (anomalies body) ->
  exists rb tk current history t,
    request = Some rb /\ req_ticker rb = Some tk /\ res_ticker body = tk /\
    currentData rb = Some current /\ readable rb = Some history /\
    (detectZScoreAnomaly t (Js.ToNumber (price current)) (pricesOf history)
       tk zscore_threshold = Some a \/
     detectVolumeSpikeAnomaly t (Js.ToNumber (volume current)) (volumesOf history)
       tk volume_threshold = Some a \/
     detectPriceDeviation t (Js.ToNumber (price current)) (pricesOf history)
       tk deviation_window deviation_threshold = Some a \/
     detectLOFAnomaly t (Js.ToNumber (price current)) (Js.ToNumber (volume current))
       (pointsOf history) tk lof_threshold = Some a).
Proof.
  intros HPOST Hin.
  apply POST_answer in HPOST
    as (rb & tk & current & history & t1 & t2 & t3 & t4
        & Hreq & Htk & Hcur & Hhist & Hres & _ & Hsorted).
  rewrite Hsorted in Hin. apply In_sort, In_found_at in Hin.
  destruct Hin as [H|[H|[H|H]]];
    [exists rb, tk, current, history, t1 | exists rb, tk, current, history, t2
    | exists rb, tk, current, history, t3 | exists rb, tk, current, history, t4];
    repeat split; auto.
Qed.

(** X2.  No finding of an answer has the severity low: the handler calls
    each detector with its default threshold, which is also the lower bound
    of the medium bucket. *)
Theorem findings_never_low
    (clock : nat -> Z) (request : option RequestBody) (body : ResponseBody)
    (a : AnomalyResult) :
  POST clock request = Ok200 body -> In a (anomalies body) ->
  severity a = medium \/ severity a = high \/ severity a = critical.
Proof.
  intros HPOST Hin.
  destruct (POST_finding_origin _ _ _ _ HPOST Hin)
    as (rb & tk & current & history & t & _ & _ & _ & _ & _ & [H|[H|[H|H]]]).
  - apply detectZScoreAnomaly_Some in H as (_ & _ & _ & _ & -> & Hgt).
    unfold zscore_severity, zscore_threshold in *.
    destruct (Js.gt _ 4); auto. destruct (Js.gt _ 3); auto. rewrite Hgt. auto.
  - apply detectVolumeSpikeAnomaly_Some in H as (_ & _ & _ & _ & -> & Hgt).
    unfold volume_severity, volume_threshold in *.
    destruct (Js.gt _ 10); auto. destruct (Js.gt _ 5); auto. rewrite Hgt. auto.
  - apply detectPriceDeviation_Some in H as (_ & _ & _ & _ & -> & Hgt).
    unfold deviation_severity, deviation_threshold in *.
    destruct (Js.gt _ 15); auto. destruct (Js.gt _ 10); auto. rewrite Hgt. auto.
  - apply detectLOFAnomaly_Some in H as (_ & _ & _ & _ & -> & Hgt).
    unfold lof_severity, lof_threshold in *.
    destruct (Js.gt _ 3); auto. destruct (Js.gt _ 2); auto. rewrite Hgt. auto.
Qed.

Lemma findings_never_low_witness :
  severity jump_volume_spike = medium \/ severity jump_volume_spike = high \/
  severity jump_volume_spike = critical.
Proof.
  apply (findings_never_low sample_clock jump_request
           (body_of (POST sample_clock jump_request))).
  - vm_compute. reflexivity.
  - vm_compute. tauto.
Defined.

(** X3.  Every answer with status 200, with or without findings, names the
    ticker of the request, and so does every finding in it. *)
Theorem findings_carry_request_ticker
    (clock : nat -> Z) (rb : RequestBody) (tk : string) (body : ResponseBody) :
  POST clock (Some rb) = Ok200 body -> req_ticker rb = Some tk ->
  res_ticker body = tk /\
  forall a, In a (anomalies body) -> ticker a = tk.
Proof.
  intros HPOST Htk. split.
  - apply POST_Ok200 in HPOST
      as (rb' & tk' & current & history & Hreq & Htk' & _ & _ & _ & Hres & _).
    injection Hreq as <-. rewrite Htk in Htk'. injection Htk' as <-. exact Hres.
  - intros a Hin.
    destruct (POST_finding_origin _ _ _ _ HPOST Hin)
      as (rb' & tk' & current & history & t & Hreq & Htk' & _ & _ & _ & H).
    injection Hreq as <-. rewrite Htk in Htk'. injection Htk' as <-.
    destruct H as [H|[H|[H|H]]].
    + now apply detectZScoreAnomaly_Some in H as (_ & _ & _ & -> & _).
    + now apply detectVolumeSpikeAnomaly_Some in H as (_ & _ & _ & -> & _).
    + now apply detectPriceDeviation_Some in H as (_ & _ & _ & -> & _).
    + now apply detectLOFAnomaly_Some in H as (_ & _ & _ & -> & _).
Qed.

(** On a request that gets four findings, and on one that gets none. *)
Lemma findings_carry_request_ticker_witness :
  (res_ticker (body_of (POST sample_clock jump_request)) = "BTCUSDT"%string /\
   Forall (fun a => ticker a = "BTCUSDT"%string)
     (anomalies (body_of (POST sample_clock jump_request)))) /\
  (res_ticker (body_of (POST sample_clock
                          (request_for (observation 50 1000)
                             (repeat (observation 50 1000) 20))))
   = "BTCUSDT"%string /\
   anomalies (body_of (POST sample_clock
                         (request_for (observation 50 1000)
                            (repeat (observation 50 1000) 20)))) = []).
Proof.
  split.
  - destruct (findings_carry_request_ticker sample_clock
                (mkRequestBody (Some "BTCUSDT"%string) (Some (observation 106 4000))
                   (objects steady_history))
                "BTCUSDT" (body_of (POST sample_clock jump_request)))
      as [Hres Hall]; [vm_compute; reflexivity | reflexivity |].
    split; [exact Hres | apply Forall_forall; exact Hall].
  - destruct (findings_carry_request_ticker sample_clock
                (mkRequestBody (Some "BTCUSDT"%string) (Some (observation 50 1000))
                   (objects (repeat (observation 50 1000) 20)))
                "BTCUSDT"
                (body_of (POST sample_clock
                            (request_for (observation 50 1000)
                               (repeat (observation 50 1000) 20)))))
      as [Hres _]; [vm_compute; reflexivity | reflexivity |].
    split; [exact Hres | vm_compute; reflexivity].
Defined.

(** X4.  With a history of fewer than 20 entries an answer holds no
    price-deviation and no LOF finding: only the z-score and the
    volume-spike detectors can report. *)
Theorem short_history_limits_kinds
    (clock : nat -> Z) (rb : RequestBody) (entries : list Entry)
    (body : ResponseBody) (a : AnomalyResult) :
  POST clock (Some rb) = Ok200 body -> historicalData rb = Some (ArrayOf entries) ->
  (List.length entries < 20)%nat -> In a (anomalies body) ->
  type a = zscore \/ type a = volume_spike.
Proof.
  intros HPOST Hhist Hlen Hin.
  destruct (POST_finding_origin _ _ _ _ HPOST Hin)
    as (rb' & tk & current & history & t & Hreq & _ & _ & _ & Hread & H).
  injection Hreq as <-.
  rewrite (readable_entries rb entries history Hhist Hread), length_map in Hlen.
  destruct H as [H|[H|[H|H]]].
  - apply detectZScoreAnomaly_Some in H as (-> & _). auto.
  - apply detectVolumeSpikeAnomaly_Some in H as (-> & _). auto.
  - exfalso. unfold detectPriceDeviation, deviation_window, pricesOf in H.
    rewrite length_map in H.
    destruct (Nat.ltb_spec (List.length history) 20); [discriminate | lia].
  - exfalso. unfold detectLOFAnomaly, pointsOf in H.
    rewrite length_map in H.
    destruct (Nat.ltb_spec (List.length history) 20); [discriminate | lia].
Qed.

Lemma short_history_limits_kinds_witness :
  type lone_volume_spike = zscore \/ type lone_volume_spike = volume_spike.
Proof.
  apply (short_history_limits_kinds sample_clock short_request
           (map Row (firstn 10 steady_history))
           (body_of (POST sample_clock (Some short_request)))).
  - vm_compute. reflexivity.
  - reflexivity.
  - simpl. lia.
  - vm_compute. tauto.
Defined.

(** ** Clock readings *)

Lemma push_stamped (clock : nat -> Z) (r : option AnomalyResult)
    (st : list AnomalyResult * nat) :
  stamped clock st ->
  (forall a, r = Some a -> timestamp a = clock (snd st)) ->
  stamped clock (push r st).
Proof.
  intros [Hlen Hmap] Hr. destruct r as [a|]; simpl; [|now split].
  destruct st as [l n]. unfold stamped. cbn [fst snd] in *. split.
  - rewrite length_app. simpl. lia.
  - rewrite map_app, seq_S, map_app, Hmap. simpl. now rewrite (Hr a eq_refl).
Qed.

Lemma collect_stamped (clock : nat -> Z) (tk : string) (current : PriceData)
    (history : list PriceData) :
  stamped clock (collect clock tk current history).
Proof.
  unfold collect. cbv zeta.
  repeat (apply push_stamped;
          [| intros a Ha;
             first [ apply detectZScoreAnomaly_Some in Ha
                   | apply detectVolumeSpikeAnomaly_Some in Ha
                   | apply detectPriceDeviation_Some in Ha
                   | apply detectLOFAnomaly_Some in Ha ];
             destruct Ha as (_ & _ & Ht & _); exact Ht ]).
  split; reflexivity.
Qed.

Lemma earlier_Permutation (l l' : list AnomalyResult) (a : AnomalyResult) :
  Permutation l l' -> earlier l a = earlier l' a.
Proof.
  unfold earlier. induction 1 as [|x l l' _ IH|x y l|l l' l'' _ IH _ IH']; simpl.
  - reflexivity.
  - destruct (_ <? _)%nat; simpl; now rewrite IH.
  - destruct (detector_index (type x) <? _)%nat, (detector_index (type y) <? _)%nat;
      reflexivity.
  - now rewrite IH.
Qed.

(** In the order of the calls, a finding stands at the place that counts the
    findings before it. *)
Lemma earlier_called_before (l : list AnomalyResult) (k : nat) (a : AnomalyResult) :
  StronglySorted called_before l -> nth_error l k = Some a -> earlier l a = k.
Proof.
  intros Hl. revert k. induction Hl as [|x l Hl IH Hx]; intros k Hk.
  - destruct k; discriminate.
  - rewrite Forall_forall in Hx. unfold earlier in *. simpl.
    destruct k as [|k]; simpl in Hk.
    + injection Hk as <-. rewrite Nat.ltb_irrefl.
      clear IH Hl. induction l as [|y l IHl]; [reflexivity|]. simpl.
      assert (Hy : called_before x y) by (apply Hx; now left).
      unfold called_before in Hy.
      destruct (Nat.ltb_spec (detector_index (type y)) (detector_index (type x)));
        [lia|].
      apply IHl. intros z Hz. apply Hx. now right.
    + assert (Hin : In a l) by (eapply nth_error_In; exact Hk).
      specialize (Hx a Hin). unfold called_before in Hx.
      destruct (Nat.ltb_spec (detector_index (type x)) (detector_index (type a)));
        [|lia].
      simpl. f_equal. now apply IH.
Qed.

(** X5.  The handler reads the clock once for each finding, when the
    detector builds it, and once more for the answer.  So the answer carries
    the reading number [anomalyCount], and each finding the reading whose
    number is the count of the findings made by detectors called before its
    own: the readings 0, 1, ... in the order of the detector calls.  On a
    clock that does not run backwards no finding is stamped later than the
    answer. *)
Theorem findings_stamped_before_answer
    (clock : nat -> Z) (request : option RequestBody) (body : ResponseBody) :
  POST clock request = Ok200 body ->
  res_timestamp body = clock (anomalyCount body) /\
  (forall a, In a (anomalies body) ->
     timestamp a = clock (earlier (anomalies body) a) /\
     (earlier (anomalies body) a < anomalyCount body)%nat) /\
  ((forall i j, (i <= j)%nat -> (clock i <= clock j)%Z) ->
   forall a, In a (anomalies body) -> (timestamp a <= res_timestamp body)%Z).
Proof.
  intros HPOST.
  destruct (POST_Ok200 clock request body HPOST)
    as (rb & tk & current & history & -> & Htk & Hne & Hcur & Hread & _).
  rewrite (POST_readable clock rb tk current history Htk Hne Hcur Hread) in HPOST.
  injection HPOST as <-. cbn [res_timestamp anomalyCount anomalies].
  pose proof (collect_stamped clock tk current history) as [Hlen Hmap].
  destruct (collect_found clock tk current history) as (t1 & t2 & t3 & t4 & Hfound).
  pose proof (found_at_called_in_order t1 t2 t3 t4 tk current history) as Hsorted.
  rewrite <- Hfound in Hsorted.
  destruct (collect clock tk current history) as [found readings].
  cbn [fst snd] in *. rewrite length_sort, <- Hlen.
  assert (Hstamp : forall a, In a (Js.sort by_severity found) ->
            timestamp a = clock (earlier (Js.sort by_severity found) a) /\
            (earlier (Js.sort by_severity found) a < readings)%nat).
  { intros a Hin. apply In_sort in Hin.
    destruct (In_nth_error found a Hin) as (k & Hk).
    rewrite (earlier_Permutation _ found a (sort_Permutation by_severity found)).
    rewrite (earlier_called_before found k a Hsorted Hk).
    assert (Hlt : (k < readings)%nat).
    { rewrite Hlen. apply nth_error_Some. congruence. }
    split; [|exact Hlt].
    assert (Hnth : nth_error (map timestamp found) k = Some (timestamp a)).
    { now rewrite nth_error_map, Hk. }
    rewrite Hmap, nth_error_map, nth_error_seq in Hnth.
    destruct (Nat.ltb_spec k readings) as [_|]; [|lia].
    simpl in Hnth. now injection Hnth as <-. }
  split; [reflexivity|]. split; [exact Hstamp|].
  intros Hmono a Hin. destruct (Hstamp a Hin) as [-> Hlt]. apply Hmono. lia.
Qed.

(** On the request with four findings, where the volume spike stands third
    in the answer and was stamped second. *)
Lemma findings_stamped_before_answer_witness :
  res_timestamp (body_of (POST sample_clock jump_request))
  = sample_clock (anomalyCount (body_of (POST sample_clock jump_request))) /\
  (timestamp jump_volume_spike
   = sample_clock (earlier (anomalies (body_of (POST sample_clock jump_request)))
                     jump_volume_spike) /\
   (earlier (anomalies (body_of (POST sample_clock jump_request))) jump_volume_spike
    < anomalyCount (body_of (POST sample_clock jump_request)))%nat) /\
  (timestamp jump_volume_spike
   <= res_timestamp (body_of (POST sample_clock jump_request)))%Z.
Proof.
  destruct (findings_stamped_before_answer sample_clock jump_request
              (body_of (POST sample_clock jump_request)))
    as (Hanswer & Hstamp & Hbefore); [vm_compute; reflexivity|].
  split; [exact Hanswer|]. split.
  - apply Hstamp. vm_compute. tauto.
  - apply Hbefore.
    + intros i j Hij. unfold sample_clock. lia.
    + vm_compute. tauto.
Defined.

Example jump_request_stamps :
  map (fun a => (type a, timestamp a)) (anomalies (body_of (POST sample_clock jump_request)))
  = [(zscore, sample_clock 0); (lof, sample_clock 3);
     (volume_spike, sample_clock 1); (price_deviation, sample_clock 2)] /\
  res_timestamp (body_of (POST sample_clock jump_request)) = sample_clock 4.
Proof. split; vm_compute; reflexivity. Qed.

(** ** The moving-average window *)

Lemma slice_last_app {A} (older recent : list A) :
  recent <> [] ->
  Js.slice_last (List.length recent) (older ++ recent) = recent.
Proof.
  intros Hne. unfold Js.slice_last.
  destruct (List.length recent) eqn:E.
  - destruct recent; [contradiction | discriminate].
  - rewrite <- E, length_app, Nat.add_sub.
    rewrite skipn_app, skipn_all, Nat.sub_diag. reflexivity.
Qed.

Lemma slice_last_self {A} (l : list A) : Js.slice_last (List.length l) l = l.
Proof.
  unfold Js.slice_last. destruct (List.length l) eqn:E; [reflexivity|].
  now rewrite Nat.sub_diag.
Qed.

(** X7.  The price-deviation detector looks at the last [maWindow] prices
    only: prices older than the window do not change its result. *)
Theorem price_deviation_reads_window_only
    (now : Z) (cp : float) (older recent : list float) (tk : string) (th : float) :
  recent <> [] ->
  detectPriceDeviation now cp (older ++ recent) tk (List.length recent) th
  = detectPriceDeviation now cp recent tk (List.length recent) th.
Proof.
  intros Hne. unfold detectPriceDeviation.
  rewrite slice_last_app by assumption. rewrite slice_last_self.
  rewrite length_app.
  destruct (Nat.ltb_spec (List.length older + List.length recent) (List.length recent));
    [lia|].
  now rewrite Nat.ltb_irrefl.
Qed.

Lemma price_deviation_reads_window_only_witness :
  detectPriceDeviation 0 106 ([1; 2; 3] ++ pricesOf steady_history) "X"
    (List.length (pricesOf steady_history)) 5
  = detectPriceDeviation 0 106 (pricesOf steady_history) "X"
      (List.length (pricesOf steady_history)) 5.
Proof.
  apply (price_deviation_reads_window_only 0 106 [1; 2; 3] (pricesOf steady_history) "X" 5).
  discriminate.
Defined.

(** ** [NaN] in the inputs *)

Lemma add_nan_l (x : float) : nan + x = nan.
Proof.
  pose proof (add_spec nan x) as H. unfold SF64add, SFadd in H.
  replace (Prim2SF nan) with S754_nan in H by reflexivity.
  apply float_of_SF in H. rewrite H. reflexivity.
Qed.

Lemma add_nan_r (x : float) : x + nan = nan.
Proof.
  pose proof (add_spec x nan) as H. unfold SF64add, SFadd in H.
  replace (Prim2SF nan) with S754_nan in H by reflexivity.
  destruct (Prim2SF x); apply float_of_SF in H; rewrite H; reflexivity.
Qed.

Lemma sub_nan_r (x : float) : x - nan = nan.
Proof.
  pose proof (sub_spec x nan) as H. unfold SF64sub, SFsub in H.
  replace (Prim2SF nan) with S754_nan in H by reflexivity.
  destruct (Prim2SF x); apply float_of_SF in H; rewrite H; reflexivity.
Qed.






Lemma distance_nan_l (y : float) (h : float * float) : distance (nan, y) h = nan.
Proof.
  unfold distance, Js.pow2. simpl fst.
  rewrite sub_nan_l, mul_nan_l, add_nan_l. reflexivity.
Qed.

Lemma distance_nan_r (x : float) (h : float * float) : distance (x, nan) h = nan.
Proof.
  unfold distance, Js.pow2. simpl snd.
  rewrite sub_nan_l, mul_nan_l, add_nan_r. reflexivity.
Qed.

Lemma map_constant {A B} (f : A -> B) (c : B) (l : list A) :
  (forall x, f x = c) -> map f l = repeat c (List.length l).
Proof. intros H. induction l as [|x l IH]; simpl; [reflexivity|]. now rewrite H, IH. Qed.

Lemma Math_min_with_nan (l : list float) : In nan l -> Js.Math_min l = nan.
Proof.
  intros H. unfold Js.Math_min.
  replace (existsb is_nan l) with true; [reflexivity|].
  symmetry. apply existsb_exists. exists nan. split; [assumption | reflexivity].
Qed.

(** The LOF score is [NaN] as soon as a coordinate of the normalised current
    point is. *)
Lemma lofScoreOf_nan (cp cv : float) (hd : list (float * float)) :
  (20 <= List.length hd)%nat ->
  (let nc := normalize (Js.Math_min (map fst hd)) (Js.Math_max (map fst hd))
               (Js.Math_min (map snd hd)) (Js.Math_max (map snd hd)) (cp, cv) in
   fst nc = nan \/ snd nc = nan) ->
  lofScoreOf cp cv hd = nan.
Proof.
  intros Hlen Hnc. unfold lofScoreOf. cbv zeta in *.
  set (nc := normalize _ _ _ _ (cp, cv)) in *.
  set (nh := map (normalize _ _ _ _) hd).
  assert (Hd : forall h, distance nc h = nan).
  { intros h. destruct nc as [x y]. simpl in Hnc.
    destruct Hnc as [-> | ->]; [apply distance_nan_l | apply distance_nan_r]. }
  rewrite (map_constant (fun h => distance nc h) nan nh Hd).
  unfold nh at 1. rewrite length_map.
  replace (Nat.min 5 (List.length hd - 1)) with 5%nat by lia.
  rewrite mean_five by lia.
  replace (mean (repeat nan 5)) with nan by reflexivity.
  apply div_nan_l.
Qed.

Lemma lof_silent_on_nan now cp cv hd tk th :
  cp = nan \/ cv = nan \/ In nan (map fst hd) \/ In nan (map snd hd) ->
  detectLOFAnomaly now cp cv hd tk th = None.
Proof.
  intros H. unfold detectLOFAnomaly.
  destruct (Nat.ltb_spec (List.length hd) 20) as [|Hlen]; [reflexivity|].
  rewrite lofScoreOf_nan; [now rewrite gt_nan_l | exact Hlen |].
  unfold normalize. simpl.
  destruct H as [->|[->|[H|H]]].
  - left. now rewrite sub_nan_l, div_nan_l.
  - right. now rewrite sub_nan_l, div_nan_l.
  - left. now rewrite Math_min_with_nan, sub_nan_r, div_nan_l.
  - right. now rewrite Math_min_with_nan, sub_nan_r, div_nan_l.
Qed.

(** X8.  When the current observation has no price, the z-score, the
    price-deviation and the LOF detectors compute with [NaN] and report
    nothing: every finding of the answer is a volume spike. *)
Theorem absent_current_price_silences
    (clock : nat -> Z) (rb : RequestBody) (current : PriceData)
    (body : ResponseBody) (a : AnomalyResult) :
  POST clock (Some rb) = Ok200 body -> currentData rb = Some current ->
  price current = Js.Undefined -> In a (anomalies body) ->
  type a = volume_spike.
Proof.
  intros HPOST Hcur Hprice Hin.
  destruct (POST_finding_origin _ _ _ _ HPOST Hin)
    as (rb' & tk & current' & history & t & Hreq & _ & _ & Hcur' & _ & H).
  injection Hreq as <-. rewrite Hcur in Hcur'. injection Hcur' as <-.
  rewrite Hprice in H. destruct H as [H|[H|[H|H]]].
  - now rewrite zscore_silent_on_absent_price in H.
  - now apply detectVolumeSpikeAnomaly_Some in H as (-> & _).
  - now rewrite deviation_silent_on_absent_price in H.
  - rewrite lof_silent_on_nan in H; [discriminate | now left].
Qed.

Lemma absent_current_price_silences_witness : type lone_volume_spike = volume_spike.
Proof.
  apply (absent_current_price_silences sample_clock priceless_request
           (mkPriceData Js.Undefined Js.Undefined (Js.Num 4000))
           (body_of (POST sample_clock (Some priceless_request)))
           lone_volume_spike).
  - vm_compute. reflexivity.
  - reflexivity.
  - reflexivity.
  - vm_compute. tauto.
Defined.

(** X9.  When the current observation has no volume, the volume-spike and
    the LOF detectors report nothing: every finding of the answer is a
    z-score or a price-deviation finding. *)
Theorem absent_current_volume_silences
    (clock : nat -> Z) (rb : RequestBody) (current : PriceData)
    (body : ResponseBody) (a : AnomalyResult) :
  POST clock (Some rb) = Ok200 body -> currentData rb = Some current ->
  volume current = Js.Undefined -> In a (anomalies body) ->
  type a = zscore \/ type a = price_deviation.
Proof.
  intros HPOST Hcur Hvolume Hin.
  destruct (POST_finding_origin _ _ _ _ HPOST Hin)
    as (rb' & tk & current' & history & t & Hreq & _ & _ & Hcur' & _ & H).
  injection Hreq as <-. rewrite Hcur in Hcur'. injection Hcur' as <-.
  rewrite Hvolume in H. destruct H as [H|[H|[H|H]]].
  - apply detectZScoreAnomaly_Some in H as (-> & _). auto.
  - now rewrite volume_silent_on_absent_volume in H.
  - apply detectPriceDeviation_Some in H as (-> & _). auto.
  - rewrite lof_silent_on_nan in H; [discriminate | right; now left].
Qed.

Lemma absent_current_volume_silences_witness :
  type even_jump = zscore \/ type even_jump = price_deviation.
Proof.
  apply (absent_current_volume_silences sample_clock volumeless_request
           (mkPriceData Js.Undefined (Js.Num 105) Js.Undefined)
           (body_of (POST sample_clock (Some volumeless_request)))).
  - vm_compute. reflexivity.
  - reflexivity.
  - reflexivity.
  - vm_compute. tauto.
Defined.



Example hole_requests_answered :
  outcome (POST sample_clock (Some price_hole_request))
  = Answered "BTCUSDT" 1 [(volume_spike, medium, 4, 3, "BTCUSDT"%string)]
      (mkSummary true (Some medium) [volume_spike]) /\
  map (fun a => (type a, severity a))
    (anomalies (body_of (POST sample_clock (Some volume_hole_request))))
  = [(zscore, critical)].
Proof. split; vm_compute; reflexivity. Qed.

(** ** Sign of the standard deviation *)

Lemma binary_round_aux_sign (s : bool) (m e : Z) (l : location) :
  binary_round_aux prec emax s m e l = S754_nan \/
  binary_round_aux prec emax s m e l = S754_zero s \/
  binary_round_aux prec emax s m e l = S754_infinity s \/
  exists m' e', binary_round_aux prec emax s m e l = S754_finite s m' e'.
Proof.
  unfold binary_round_aux.
  destruct (shr_fexp prec emax m e l) as [mrs' e'].
  destruct (shr_fexp prec emax _ e' loc_Exact) as [mrs'' e''].
  destruct (shr_m mrs'') as [|p|p]; [tauto | | tauto].
  destruct (e'' <=? emax - prec)%Z; [|tauto].
  right; right; right. eauto.
Qed.

Lemma sqrt_not_negative (x : float) : (PrimFloat.sqrt x <? 0) = false.
Proof.
  rewrite FloatAxioms.ltb_spec, sqrt_spec. unfold SF64sqrt, SFsqrt, SFltb.
  replace (Prim2SF 0) with (S754_zero false) by reflexivity.
  destruct (Prim2SF x) as [s|[|]| |[|] m e]; try reflexivity.
  destruct (SFsqrt_core_binary prec emax (Z.pos m) e) as [[mz ez] lz].
  destruct (binary_round_aux_sign false mz ez lz) as [H|[H|[H|(m' & e' & H)]]];
    rewrite H; reflexivity.
Qed.

Lemma standardDeviation_not_negative (arr : list float) :
  (standardDeviation arr <? 0) = false.
Proof. unfold standardDeviation. apply sqrt_not_negative. Qed.

(** A float that is neither [NaN], nor zero, nor below zero is above zero. *)
Lemma positive_or_else (x : float) :
  is_nan x = false -> (x =? 0) = false -> (x <? 0) = false -> (0 <? x) = true.
Proof.
  intros Hnan. rewrite FloatAxioms.eqb_spec, !FloatAxioms.ltb_spec.
  unfold SFeqb, SFltb.
  replace (Prim2SF 0) with (S754_zero false) by reflexivity.
  destruct (Prim2SF x) as [s|[|]| |[|] m e] eqn:E; simpl; try discriminate; try reflexivity.
  apply Prim2SF_nan, is_nan_spec in E. congruence.
Qed.

(** X11.  A z-score finding is returned only for a history of at least 10
    prices whose standard deviation is a number strictly above zero (not
    zero, not [NaN], and never negative). *)
Theorem zscore_needs_positive_deviation now cp hp tk th a :
  detectZScoreAnomaly now cp hp tk th = Some a ->
  (10 <= List.length hp)%nat /\ Js.gt (standardDeviation hp) 0 = true.
Proof.
  unfold detectZScoreAnomaly. intros E.
  destruct (Nat.ltb_spec (List.length hp) 10) as [|Hlen]; [discriminate|].
  split; [exact Hlen|]. cbv zeta in E.
  destruct (standardDeviation hp =? 0) eqn:Hz; [discriminate|].
  apply positive_or_else; [|exact Hz|apply standardDeviation_not_negative].
  destruct (is_nan (standardDeviation hp)) eqn:Hnan; [|reflexivity].
  apply is_nan_spec in Hnan. rewrite Hnan, div_nan_r in E.
  replace (abs nan) with nan in E by reflexivity.
  rewrite gt_nan_l in E. discriminate.
Qed.

Lemma zscore_needs_positive_deviation_witness :
  (10 <= List.length even_prices)%nat /\ Js.gt (standardDeviation even_prices) 0 = true.
Proof.
  apply (zscore_needs_positive_deviation 0 105 even_prices "X" 2.5
           (mkAnomalyResult zscore critical 5 2.5 0 "X")).
  vm_compute. reflexivity.
Defined.

(** ** A price at the average *)

Lemma falsy_cases (x : float) : Js.falsy x = true -> x = 0 \/ x = (-0) \/ x = nan.
Proof.
  unfold Js.falsy. intros H. apply orb_true_iff in H as [H|H].
  - apply eqb_true_cases in H. destruct H as [H | (s & s' & E & _)]; [auto|].
    apply float_of_SF in E. destruct s; subst x; auto.
  - apply is_nan_spec in H. auto.
Qed.

Lemma not_below_zero (th : float) : (0 <=? th) = true -> (th <? 0) = false.
Proof.
  rewrite FloatAxioms.leb_spec, FloatAxioms.ltb_spec. unfold SFleb, SFltb.
  replace (Prim2SF 0) with (S754_zero false) by reflexivity.
  destruct (Prim2SF th) as [s|[|]| |[|] m e]; simpl; try discriminate; reflexivity.
Qed.

Lemma falsy_not_above (x th : float) :
  Js.falsy x = true -> (0 <=? th) = true -> Js.gt (abs x) th = false.
Proof.
  intros Hx Hth. apply not_below_zero in Hth.
  destruct (falsy_cases x Hx) as [-> | [-> | ->]].
  - exact Hth.
  - exact Hth.
  - apply gt_nan_l.
Qed.

Lemma falsy_div (x y : float) : Js.falsy x = true -> Js.falsy (x / y) = true.
Proof.
  intros Hx. destruct (falsy_cases x Hx) as [-> | [-> | ->]].
  - apply falsy_zero_div.
  - pose proof (div_spec (-0) y) as H. unfold SF64div, SFdiv in H.
    replace (Prim2SF (-0)) with (S754_zero true) in H by reflexivity.
    destruct (Prim2SF y) as [[|]|[|]| |[|] m e];
      apply float_of_SF in H; rewrite H; reflexivity.
  - now rewrite div_nan_l.
Qed.

Lemma falsy_times_100 (x : float) : Js.falsy x = true -> Js.falsy (x * 100) = true.
Proof. intros Hx. destruct (falsy_cases x Hx) as [-> | [-> | ->]]; reflexivity. Qed.

(** X12.  A current price equal to the mean of the history gets no z-score
    finding, and one equal to the moving average gets no price-deviation
    finding, for any threshold that is not negative. *)
Theorem price_at_average_not_flagged now hp tk w th :
  (0 <=? th) = true ->
  detectZScoreAnomaly now (mean hp) hp tk th = None /\
  detectPriceDeviation now (mean (Js.slice_last w hp)) hp tk w th = None.
Proof.
  intros Hth. split.
  - unfold detectZScoreAnomaly.
    destruct (_ <? _)%nat; [reflexivity|]. cbv zeta.
    destruct (_ =? _); [reflexivity|].
    rewrite falsy_not_above; [reflexivity| |exact Hth].
    apply falsy_div, falsy_sub_self.
  - unfold detectPriceDeviation.
    destruct (_ <? _)%nat; [reflexivity|]. cbv zeta.
    rewrite falsy_not_above; [reflexivity| |exact Hth].
    apply falsy_times_100, falsy_div, falsy_sub_self.
Qed.

Lemma price_at_average_not_flagged_witness :
  detectZScoreAnomaly 0 (mean even_prices) even_prices "X" 2.5 = None /\
  detectPriceDeviation 0 (mean (Js.slice_last 20 even_prices)) even_prices "X" 20 2.5
  = None.
Proof.
  apply (price_at_average_not_flagged 0 even_prices "X" 20 2.5).
  vm_compute. reflexivity.
Defined.

(** ** The price window *)

Lemma slice_last_length {A} (n : nat) (l : list A) :
  (0 < n)%nat -> List.length (Js.slice_last n l) = Nat.min n (List.length l).
Proof.
  intros Hn. unfold Js.slice_last. destruct n; [lia|].
  rewrite length_skipn. lia.
Qed.

Lemma slice_last_short {A} (n : nat) (l : list A) :
  (List.length l <= n)%nat -> Js.slice_last n l = l.
Proof.
  intros H. unfold Js.slice_last. destruct n; [reflexivity|].
  replace (List.length l - S n)%nat with O by lia. reflexivity.
Qed.

Lemma slice_last_again {A} (n : nat) (l : list A) (x : A) :
  (0 < n)%nat ->
  Js.slice_last n (Js.slice_last n l ++ [x]) = Js.slice_last n (l ++ [x]).
Proof.
  intros Hn. destruct (Nat.le_gt_cases (List.length l) n) as [Hle|Hgt].
  - now rewrite (slice_last_short n l).
  - unfold Js.slice_last. destruct n as [|m]; [lia|].
    rewrite !length_app, length_skipn. simpl List.length.
    replace (List.length l - (List.length l - S m) + 1 - S m)%nat with 1%nat by lia.
    replace (List.length l + 1 - S m)%nat with (1 + (List.length l - S m))%nat by lia.
    rewrite <- skipn_skipn. f_equal.
    rewrite skipn_app.
    replace (List.length l - S m - List.length l)%nat with O by lia.
    reflexivity.
Qed.

Lemma appendPrice_all (prices l : list float) :
  fold_left appendPrice prices (Js.slice_last 100 l) = Js.slice_last 100 (l ++ prices).
Proof.
  revert l. induction prices as [|p prices IH]; intros l; cbn [fold_left].
  - now rewrite app_nil_r.
  - unfold appendPrice at 2. rewrite slice_last_again by lia.
    rewrite IH. now rewrite <- app_assoc.
Qed.

(** X13.  Whatever prices arrive for a symbol, the history the dashboard
    keeps is the last 100 of them in order of arrival (all of them while
    there are fewer): it never holds more than 100 prices. *)
Theorem price_window_holds_last_100 (prices : list float) :
  fold_left appendPrice prices [] = Js.slice_last 100 prices /\
  List.length (fold_left appendPrice prices []) = Nat.min 100 (List.length prices) /\
  exists older, prices = older ++ fold_left appendPrice prices [].
Proof.
  change (@nil float) with (Js.slice_last 100 (@nil float)) at 1 2 3.
  rewrite appendPrice_all. cbn [app].
  split; [reflexivity|]. split; [apply slice_last_length; lia|].
  exists (firstn (List.length prices - 100) prices).
  unfold Js.slice_last. now rewrite firstn_skipn.
Qed.

(** ** What the route receives from the dashboard *)

Lemma map_mapi_from {A B C} (g : B -> C) (f : A -> nat -> B) (h : A -> C)
    (l : list A) (start : nat) :
  (forall x i, g (f x i) = h x) -> map g (Js.mapi_from start f l) = map h l.
Proof.
  intros H. revert start. induction l as [|x l IH]; intros start; simpl;
    [reflexivity|]. now rewrite H, IH.
Qed.

Lemma length_mapi_from {A B} (f : A -> nat -> B) (l : list A) (start : nat) :
  List.length (Js.mapi_from start f l) = List.length l.
Proof. revert start. induction l; intros; simpl; auto. Qed.

Lemma neg_zero_is_zero (x : float) : Js.is_neg_zero x = true -> (0 =? x) = true.
Proof.
  unfold Js.is_neg_zero. rewrite classify_spec, FloatAxioms.eqb_spec.
  unfold SF64classify, SFclassify, SFeqb.
  replace (Prim2SF 0) with (S754_zero false) by reflexivity.
  destruct (Prim2SF x) as [[|]|[|]| |[|] m e]; try discriminate; try reflexivity;
    destruct (Z.pos (digits2_pos m) =? prec)%Z; discriminate.
Qed.

(** The number the route computes with, for a number the dashboard sent. *)
Lemma received_number (x : float) :
  if is_finite x then same_number (Js.ToNumber (overWire x)) x
  else Js.ToNumber (overWire x) = 0.
Proof.
  unfold overWire. destruct (is_finite x); [|reflexivity]. simpl.
  destruct (Js.is_neg_zero x) eqn:E; [right; now apply neg_zero_is_zero | now left].
Qed.

Lemma rowsOf_mapi_from {A} (f : A -> nat -> PriceData) (l : list A) (start : nat) :
  rowsOf (Js.mapi_from start (fun x i => Row (f x i)) l) = Some (Js.mapi_from start f l).
Proof.
  revert start. induction l as [|x l IH]; intros start; simpl; [reflexivity|].
  now rewrite IH.
Qed.

(** The history the dashboard sends is an array of objects, so the route can
    read it. *)
Lemma detectionRequest_history symbol data history random now :
  exists entries,
    readable (detectionRequest symbol data history random now) = Some entries /\
    List.length entries = List.length history /\
    pricesOf entries = received history.
Proof.
  eexists. split; [apply rowsOf_mapi_from|]. split.
  - apply length_mapi_from.
  - unfold pricesOf, received. now apply map_mapi_from.
Qed.

Lemma detectionRequest_objects symbol data history random now entries :
  readable (detectionRequest symbol data history random now) = Some entries ->
  historicalData (detectionRequest symbol data history random now) = objects entries.
Proof.
  intros H. unfold objects.
  pose proof (fun es E => readable_entries _ es entries E H) as Hentries.
  simpl in Hentries. now rewrite <- (Hentries _ eq_refl).
Qed.

(** X14.  The request the dashboard posts gives the route one history entry
    per price it holds, each an object, in the same order; the route
    computes with the same number when the price is finite, and with 0 where
    the dashboard holds [NaN] or an infinity (written as [null] in JSON). *)
Theorem route_receives_price_history symbol data history random now :
  exists entries,
    historicalData (detectionRequest symbol data history random now) = objects entries /\
    List.length (pricesOf entries) = List.length history /\
    forall i p, nth_error history i = Some p ->
      exists q, nth_error (pricesOf entries) i = Some q /\
                if is_finite p then same_number q p else q = 0.
Proof.
  destruct (detectionRequest_history symbol data history random now)
    as (entries & He & Hlen & Hp).
  exists entries. split; [now apply detectionRequest_objects|]. rewrite Hp. unfold received.
  split; [apply length_map|].
  intros i p Hi. exists (Js.ToNumber (overWire p)). split.
  - now rewrite nth_error_map, Hi.
  - apply received_number.
Qed.

(** ** The list of findings shown *)

Section FeedFacts.
Context {Anomaly : Type} (tag : AnomalyResult -> nat -> Anomaly).

Lemma receive_bounded (feed : list Anomaly * nat) (r : Response) :
  bounded feed -> bounded (receive tag feed r).
Proof.
  intros [H50 Hcount]. unfold receive.
  destruct r as [body| |]; try (split; assumption).
  destruct (0 <? _)%nat; [|split; assumption].
  unfold bounded. cbn [fst snd]. rewrite length_firstn, length_app.
  unfold Js.mapi. rewrite length_mapi_from. lia.
Qed.

(** X15.  The list of findings the dashboard shows never holds more than 50
    entries and never more than the counter beside it says, whatever
    answers arrive; and a detection cycle keeps it so. *)
Theorem feed_stays_bounded (answers : list Response) :
  bounded (fold_left (receive tag) answers ([], O)) /\
  forall clock symbol data history random now feed,
    bounded feed ->
    bounded (detectionCycle tag clock symbol data history random now feed).
Proof.
  split.
  - assert (H : forall feed, bounded feed -> bounded (fold_left (receive tag) answers feed)).
    { induction answers as [|r rs IH]; intros feed Hf; simpl; [exact Hf|].
      apply IH, receive_bounded, Hf. }
    apply (H ([], O)). split; simpl; lia.
  - intros clock symbol data history random now feed Hf. unfold detectionCycle.
    destruct history as [h|]; [|exact Hf].
    destruct (skipped (Some h)); [exact Hf|]. now apply receive_bounded.
Qed.

(** X16.  When an answer of the route with findings arrives, all of them are
    put at the head of the list shown, in the order of the answer (at most
    4, so none is cut off by the limit of 50), and the counter grows by
    their number. *)
Theorem new_findings_shown_first
    (clock : nat -> Z) (request : option RequestBody) (body : ResponseBody)
    (feed : list Anomaly * nat) :
  POST clock request = Ok200 body ->
  firstn (anomalyCount body) (fst (receive tag feed (Ok200 body)))
  = Js.mapi tag (anomalies body) /\
  snd (receive tag feed (Ok200 body)) = (snd feed + anomalyCount body)%nat.
Proof.
  intros HPOST.
  assert (Hlen : List.length (Js.mapi tag (anomalies body)) = anomalyCount body /\
                 (anomalyCount body <= 4)%nat).
  { destruct (answer_count clock request body HPOST) as (Hc & H4).
    unfold Js.mapi. rewrite length_mapi_from. split; [now symmetry | exact H4]. }
  destruct Hlen as [Hlen H4].
  unfold receive.
  destruct (Nat.ltb_spec 0 (List.length (anomalies body))) as [Hpos|Hzero].
  - cbn [fst snd]. split.
    + rewrite firstn_firstn, Nat.min_l by lia.
      rewrite <- Hlen. rewrite firstn_app, Nat.sub_diag, firstn_all. simpl.
      now rewrite app_nil_r.
    + unfold Js.mapi in Hlen. rewrite length_mapi_from in Hlen. now rewrite Hlen.
  - assert (Hnil : anomalies body = []) by (destruct (anomalies body); simpl in *; [reflexivity | lia]).
    unfold Js.mapi in Hlen. rewrite Hnil in *. simpl in Hlen. rewrite <- Hlen. simpl.
    split; [reflexivity | lia].
Qed.
End FeedFacts.

Lemma new_findings_shown_first_witness :
  firstn (anomalyCount (body_of (POST sample_clock jump_request)))
    (fst (receive (fun a i => (i, a)) ([], O)
            (Ok200 (body_of (POST sample_clock jump_request)))))
  = Js.mapi (fun a i => (i, a)) (anomalies (body_of (POST sample_clock jump_request))) /\
  snd (receive (fun a i => (i, a)) ([], O)
         (Ok200 (body_of (POST sample_clock jump_request))))
  = (0 + anomalyCount (body_of (POST sample_clock jump_request)))%nat.
Proof.
  apply (new_findings_shown_first (fun a i => (i, a)) sample_clock jump_request).
  vm_compute. reflexivity.
Defined.

(** ** The simulated volumes *)

Lemma untimed_olist (o o' : option AnomalyResult) (a : AnomalyResult) :
  map untimed (olist o) = map untimed (olist o') -> o = Some a ->
  exists a', o' = Some a' /\ untimed a' = untimed a.
Proof.
  intros H ->. destruct o' as [a'|]; simpl in H; [|discriminate].
  exists a'. split; [reflexivity|]. simpl in H. congruence.
Qed.

(** X17.  The random volumes the dashboard makes up for the history do not
    reach the z-score and the price-deviation detectors: for the same
    symbol, market data and price history, a finding of one of these two
    kinds is in the answer with the same severity, score and threshold
    whatever the random numbers and the clocks are. *)
Theorem noise_leaves_price_detectors
    (symbol : string) (data : MarketData) (history : list float)
    (random random' now now' : nat -> float) (clock clock' : nat -> Z)
    (body body' : ResponseBody) (a : AnomalyResult) :
  POST clock (Some (detectionRequest symbol data history random now)) = Ok200 body ->
  POST clock' (Some (detectionRequest symbol data history random' now')) = Ok200 body' ->
  In a (anomalies body) ->
  type a = zscore \/ type a = price_deviation ->
  exists a', In a' (anomalies body') /\ untimed a' = untimed a.
Proof.
  intros HPOST HPOST' Hin Htype.
  apply POST_answer in HPOST
    as (rb & tk & current & entries & t1 & t2 & t3 & t4
        & Hreq & Htk & Hcur & Hhist & _ & _ & Hsorted).
  apply POST_answer in HPOST'
    as (rb' & tk' & current' & entries' & t1' & t2' & t3' & t4'
        & Hreq' & Htk' & Hcur' & Hhist' & _ & _ & Hsorted').
  injection Hreq as <-. injection Hreq' as <-.
  simpl in Htk, Htk', Hcur, Hcur'.
  injection Htk as <-. injection Htk' as <-.
  injection Hcur as <-. injection Hcur' as <-.
  destruct (detectionRequest_history symbol data history random now)
    as (e & He & _ & Hp).
  destruct (detectionRequest_history symbol data history random' now')
    as (e' & He' & _ & Hp').
  rewrite Hhist in He. injection He as <-.
  rewrite Hhist' in He'. injection He' as <-.
  rewrite Hsorted in Hin. apply In_sort, In_found_at in Hin.
  assert (Hgoal : forall a', In a' (found_at t1' t2' t3' t4' symbol
      (mkPriceData Js.Undefined (overWire (md_price data)) (overWire (md_volume data)))
      entries') -> In a' (anomalies body')).
  { intros a' H. rewrite Hsorted'. now apply In_sort. }
  rewrite Hp in Hin.
  destruct Hin as [H|[H|[H|H]]].
  - destruct (untimed_olist _ _ a
               (detectZScoreAnomaly_untimed t1 t1' _ _ _ _) H) as (a' & Ha' & Hu).
    exists a'. split; [|exact Hu]. apply Hgoal, In_found_at. left.
    now rewrite Hp'.
  - apply detectVolumeSpikeAnomaly_Some in H as (Hk & _).
    rewrite Hk in Htype. destruct Htype; discriminate.
  - destruct (untimed_olist _ _ a
               (detectPriceDeviation_untimed t3 t3' _ _ _ _ _) H) as (a' & Ha' & Hu).
    exists a'. split; [|exact Hu]. apply Hgoal, In_found_at. right; right; left.
    now rewrite Hp'.
  - apply detectLOFAnomaly_Some in H as (Hk & _).
    rewrite Hk in Htype. destruct Htype; discriminate.
Qed.

Lemma noise_leaves_price_detectors_witness :
  exists a',
    In a' (anomalies (body_of (POST sample_clock
             (Some (detectionRequest "BTCUSDT" sample_market even_prices quarter
                      browser_clock))))) /\
    untimed a' = untimed even_jump.
Proof.
  apply (noise_leaves_price_detectors "BTCUSDT" sample_market even_prices
           half quarter browser_clock browser_clock sample_clock sample_clock
           (body_of (POST sample_clock
              (Some (detectionRequest "BTCUSDT" sample_market even_prices half
                       browser_clock))))).
  - vm_compute. reflexivity.
  - vm_compute. reflexivity.
  - vm_compute. tauto.
  - now left.
Defined.

(** * Properties of the registration route *)

Section InviteFacts.
Variables toUpperCase toLowerCase trim : string -> string.
Variable jsLength : string -> nat.
Variable inherited : string -> bool.
Variable signJWT : string -> string -> string -> Z -> string.
Variable newCode : Z -> float -> string.

Local Notation "'register'" :=
  (Invite.POST toUpperCase toLowerCase trim jsLength inherited signJWT) (only parsing).
Local Notation "'later'" :=
  (Invite.after toUpperCase toLowerCase trim jsLength inherited signJWT) (only parsing).
Local Notation "'generate'" := (Invite.PUT newCode) (only parsing).

Lemma assign_same {V : Type} (table : string -> option V) (key : string) (value : V) :
  Invite.assign table key value key = Some value.
Proof. unfold Invite.assign. now rewrite String.eqb_refl. Qed.

Lemma assign_other {V : Type} (table : string -> option V) (key k : string) (value : V) :
  k <> key -> Invite.assign table key value k = table k.
Proof.
  intros H. unfold Invite.assign.
  destruct (String.eqb_spec k key); [contradiction | reflexivity].
Qed.

(** Follows every test of the handler in an equation on its result. *)
Ltac handler_cases E :=
  unfold Invite.POST in E;
  repeat match type of E with
         | (match ?x with _ => _ end) = _ => destruct x
         | (if ?c then _ else _) = _ => destruct c
         | (let _ := _ in _) = _ => cbv zeta in E
         end.

Lemma truthy_Text (s : string) : Invite.truthy (Invite.Text s) = true <-> s <> ""%string.
Proof.
  simpl. destruct (String.eqb_spec s ""); simpl; split; congruence.
Qed.

(** What a registration that succeeds has passed, and what it writes. *)
Lemma register_Created now issuedAt store request e n r c store' :
  register now issuedAt store request = (Invite.Created e n r c, store') ->
  exists body code email invite,
    request = Some body /\
    (Invite.reg_inviteCode body = Invite.Text code /\ code <> ""%string) /\
    (Invite.reg_email body = Invite.Text email /\ email <> ""%string) /\
    Invite.truthy (Invite.reg_password body) = true /\
    Invite.VALID_INVITES store (toUpperCase code) = Some invite /\
    Invite.used invite = false /\
    (now <= Invite.expiresAt invite)%Z /\
    e = trim (toLowerCase email) /\
    Invite.registered inherited store e = false /\
    Invite.tooShort jsLength (Invite.reg_password body) = false /\
    n = Invite.before_at e /\ r = "user"%string /\
    store' = Invite.mkStore
               (Invite.assign (Invite.VALID_INVITES store) (toUpperCase code)
                  (Invite.mkInvite true (Invite.createdBy invite) (Invite.expiresAt invite)))
               (Invite.assign (Invite.REGISTERED_USERS store) e
                  (Invite.mkUser (Invite.reg_password body) "user" n (toUpperCase code))).
Proof.
  unfold Invite.POST. intros H.
  destruct request as [body|]; [|discriminate].
  destruct (Invite.truthy (Invite.reg_inviteCode body)) eqn:Tcode; [|discriminate].
  destruct (Invite.truthy (Invite.reg_email body)) eqn:Temail; [|discriminate].
  destruct (Invite.truthy (Invite.reg_password body)) eqn:Tpass; [|discriminate].
  simpl in H.
  destruct (Invite.reg_inviteCode body) as [|code|] eqn:Ecode; try discriminate.
  destruct (Invite.VALID_INVITES store (toUpperCase code)) as [invite|] eqn:Einv;
    [|discriminate].
  destruct (Invite.used invite) eqn:Eused; [discriminate|].
  destruct (Z.gtb_spec now (Invite.expiresAt invite)) as [|Hnow]; [discriminate|].
  destruct (Invite.reg_email body) as [|email|] eqn:Eemail; try discriminate.
  cbv zeta in H.
  destruct (Invite.registered inherited store (trim (toLowerCase email))) eqn:Ereg;
    [discriminate|].
  destruct (Invite.tooShort jsLength (Invite.reg_password body)) eqn:Eshort;
    [discriminate|].
  injection H as <- <- <- <- <-.
  apply truthy_Text in Tcode, Temail.
  exists body, code, email, invite. repeat split; auto.
Qed.

Lemma register_Rejected now issuedAt store request status error store' :
  register now issuedAt store request = (Invite.Rejected status error, store') ->
  store' = store.
Proof.
  intros H. handler_cases H; try discriminate; now injection H.
Qed.

Lemma register_never_generates now issuedAt store request codes store' :
  register now issuedAt store request <> (Invite.Generated codes, store').
Proof.
  intros E. handler_cases E; discriminate.
Qed.

(** A code that is used stays used, and an address that is registered stays
    registered, whatever is registered later. *)
Lemma register_keeps_used now issuedAt store request key invite :
  Invite.VALID_INVITES store key = Some invite -> Invite.used invite = true ->
  exists invite',
    Invite.VALID_INVITES (snd (register now issuedAt store request)) key = Some invite' /\
    Invite.used invite' = true.
Proof.
  intros Hkey Hused.
  destruct (register now issuedAt store request) as [[e n r c|codes|status error] store'] eqn:E.
  - apply register_Created in E
      as (body & code & email & inv & _ & _ & _ & _ & Hinv & Hunused & _ & _ & _ & _ & _ & _ & ->).
    simpl. destruct (String.eqb_spec key (toUpperCase code)) as [->|Hne].
    + rewrite assign_same. eexists. split; reflexivity.
    + rewrite assign_other by assumption. eauto.
  - now apply register_never_generates in E.
  - apply register_Rejected in E. subst store'. simpl. eauto.
Qed.

Lemma register_keeps_registered now issuedAt store request e :
  Invite.registered inherited store e = true ->
  Invite.registered inherited (snd (register now issuedAt store request)) e = true.
Proof.
  intros Hreg.
  destruct (register now issuedAt store request) as [[e' n r c|codes|status error] store'] eqn:E.
  - apply register_Created in E
      as (body & code & email & inv & _ & _ & _ & _ & _ & _ & _ & He' & Hnew & _ & _ & _ & ->).
    simpl. unfold Invite.registered in *. simpl.
    destruct (String.eqb_spec e e') as [->|Hne].
    + now rewrite assign_same.
    + now rewrite assign_other.
  - now apply register_never_generates in E.
  - apply register_Rejected in E. now subst store'.
Qed.

Lemma later_keeps_used requests store key invite :
  Invite.VALID_INVITES store key = Some invite -> Invite.used invite = true ->
  exists invite',
    Invite.VALID_INVITES (later store requests) key = Some invite' /\
    Invite.used invite' = true.
Proof.
  revert store invite. induction requests as [|[[now issuedAt] request] rs IH];
    intros store invite Hkey Hused; simpl; [eauto|].
  destruct (register_keeps_used now issuedAt store request key invite Hkey Hused)
    as (invite' & Hkey' & Hused').
  exact (IH _ _ Hkey' Hused').
Qed.

Lemma later_keeps_registered requests store e :
  Invite.registered inherited store e = true ->
  Invite.registered inherited (later store requests) e = true.
Proof.
  revert store. induction requests as [|[[now issuedAt] request] rs IH];
    intros store H; simpl; [exact H|].
  apply IH. now apply register_keeps_registered.
Qed.

Lemma tooShort_Text (field : Invite.Field) (pass : string) :
  Invite.tooShort jsLength field = false -> field = Invite.Text pass ->
  (8 <= jsLength pass)%nat.
Proof.
  intros H ->. simpl in H. now apply Nat.ltb_ge.
Qed.

(** A registration that passes the tests before the one on the password. *)
Lemma register_to_password now issuedAt store code email pass invite :
  code <> ""%string -> email <> ""%string -> Invite.truthy pass = true ->
  Invite.VALID_INVITES store (toUpperCase code) = Some invite ->
  Invite.used invite = false -> (now <= Invite.expiresAt invite)%Z ->
  Invite.registered inherited store (trim (toLowerCase email)) = false ->
  Invite.tooShort jsLength pass = false ->
  register now issuedAt store
    (Some (Invite.mkRegistration (Invite.Text code) (Invite.Text email) pass))
  = (Invite.Created (trim (toLowerCase email))
       (Invite.before_at (trim (toLowerCase email))) "user"
       (signJWT (trim (toLowerCase email)) "user"
          (Invite.before_at (trim (toLowerCase email))) issuedAt),
     Invite.mkStore
       (Invite.assign (Invite.VALID_INVITES store) (toUpperCase code)
          (Invite.mkInvite true (Invite.createdBy invite) (Invite.expiresAt invite)))
       (Invite.assign (Invite.REGISTERED_USERS store) (trim (toLowerCase email))
          (Invite.mkUser pass "user" (Invite.before_at (trim (toLowerCase email)))
             (toUpperCase code)))).
Proof.
  intros Hc He Hp Hinv Hunused Hnow Hnew Hlen.
  apply truthy_Text in Hc, He.
  unfold Invite.POST. cbn [Invite.reg_inviteCode Invite.reg_email Invite.reg_password].
  rewrite Hc, He, Hp, Hinv, Hunused. cbn [negb orb].
  destruct (Z.gtb_spec now (Invite.expiresAt invite)) as [|_]; [lia|].
  cbv zeta. now rewrite Hnew, Hlen.
Qed.

(** X18.  A registration succeeds only if all three fields are given, the
    code and the address are strings, the code (in upper case) is in the
    table of invites, unused and not past its expiry, the normalised address
    is not registered yet, and [password.length < 8] is false.  This last
    test means at least 8 units for a password that is a string; a password
    that is no string and has no [length], such as a number, passes it.
    The account is then stored under the normalised address with the role
    user and the password as given. *)
Theorem registration_requirements now issuedAt store request e n r c store' :
  register now issuedAt store request = (Invite.Created e n r c, store') ->
  exists body code email invite,
    request = Some body /\
    (Invite.reg_inviteCode body = Invite.Text code /\ code <> ""%string) /\
    (Invite.reg_email body = Invite.Text email /\ email <> ""%string) /\
    Invite.truthy (Invite.reg_password body) = true /\
    Invite.VALID_INVITES store (toUpperCase code) = Some invite /\
    Invite.used invite = false /\
    (now <= Invite.expiresAt invite)%Z /\
    e = trim (toLowerCase email) /\
    Invite.registered inherited store e = false /\
    (Invite.tooShort jsLength (Invite.reg_password body) = false /\
     forall pass, Invite.reg_password body = Invite.Text pass -> (8 <= jsLength pass)%nat) /\
    r = "user"%string /\
    Invite.REGISTERED_USERS store' e
    = Some (Invite.mkUser (Invite.reg_password body) "user" (Invite.before_at e)
              (toUpperCase code)).
Proof.
  intros H. apply register_Created in H
    as (body & code & email & invite & H1 & H2 & H3 & H4 & H5 & H6 & H7 & H8
        & H9 & H10 & H11 & H12 & ->).
  exists body, code, email, invite. subst n.
  split; [exact H1|]. split; [exact H2|]. split; [exact H3|]. split; [exact H4|].
  split; [exact H5|]. split; [exact H6|]. split; [exact H7|]. split; [exact H8|].
  split; [exact H9|]. split; [|split; [exact H12|]].
  - split; [exact H10|]. intros pass. now apply tooShort_Text.
  - simpl. apply assign_same.
Qed.

(** X25.  The test on the password does not ask for a string: with a valid
    invite and a new address, a password that has no [length], such as the
    number 1234, is accepted and stored as the password of the account. *)
Theorem password_without_length_accepted now issuedAt store code email invite :
  code <> ""%string -> email <> ""%string ->
  Invite.VALID_INVITES store (toUpperCase code) = Some invite ->
  Invite.used invite = false -> (now <= Invite.expiresAt invite)%Z ->
  Invite.registered inherited store (trim (toLowerCase email)) = false ->
  exists cookie store',
    Invite.POST toUpperCase toLowerCase trim jsLength inherited signJWT now issuedAt store
      (Some (Invite.mkRegistration (Invite.Text code) (Invite.Text email)
               (Invite.Other Js.Undefined)))
    = (Invite.Created (trim (toLowerCase email))
         (Invite.before_at (trim (toLowerCase email))) "user" cookie, store') /\
    option_map Invite.password
      (Invite.REGISTERED_USERS store' (trim (toLowerCase email)))
    = Some (Invite.Other Js.Undefined).
Proof.
  intros Hc He Hinv Hunused Hnow Hnew.
  rewrite (register_to_password now issuedAt store code email (Invite.Other Js.Undefined)
             invite Hc He eq_refl Hinv Hunused Hnow Hnew eq_refl).
  do 2 eexists. split; [reflexivity|]. simpl. now rewrite assign_same.
Qed.

(** X19.  A registration that is refused, for whatever reason, leaves both
    tables as they were. *)
Theorem rejection_changes_nothing now issuedAt store request status error store' :
  Invite.POST toUpperCase toLowerCase trim jsLength inherited signJWT
    now issuedAt store request
  = (Invite.Rejected status error, store') ->
  store' = store.
Proof. apply register_Rejected. Qed.

(** X20.  An invite code works once: after a registration with it has
    succeeded, and whatever registrations are tried in between, a request
    that gives the same code (in any letter case) is refused with 'This
    invite code has already been used' and changes nothing. *)
Theorem invite_single_use
    now issuedAt store request e n r c store' code
    (requests : list (Z * Z * option Invite.Registration))
    now' issuedAt' code' email' pass' :
  register now issuedAt store (Some request) = (Invite.Created e n r c, store') ->
  Invite.reg_inviteCode request = Invite.Text code ->
  toUpperCase code' = toUpperCase code ->
  code' <> ""%string -> Invite.truthy email' = true -> Invite.truthy pass' = true ->
  register now' issuedAt' (later store' requests)
    (Some (Invite.mkRegistration (Invite.Text code') email' pass'))
  = (Invite.Rejected 400 "This invite code has already been used", later store' requests).
Proof.
  intros H Hcode Hsame Hc He Hp.
  apply register_Created in H
    as (body & code0 & email & invite & Hreq & (Hcode0 & _) & _ & _ & Hinv & _ & _ & _
        & _ & _ & _ & _ & ->).
  injection Hreq as <-. rewrite Hcode in Hcode0. injection Hcode0 as <-.
  destruct (later_keeps_used requests
              (Invite.mkStore
                 (Invite.assign (Invite.VALID_INVITES store) (toUpperCase code)
                    (Invite.mkInvite true (Invite.createdBy invite) (Invite.expiresAt invite)))
                 (Invite.assign (Invite.REGISTERED_USERS store) e
                    (Invite.mkUser (Invite.reg_password request) "user" n (toUpperCase code))))
              (toUpperCase code) _ (assign_same _ _ _) eq_refl)
    as (invite' & Hkey & Hused).
  apply truthy_Text in Hc.
  unfold Invite.POST. cbn [Invite.reg_inviteCode Invite.reg_email Invite.reg_password].
  rewrite Hc, He, Hp. cbn [negb orb].
  rewrite Hsame, Hkey, Hused. reflexivity.
Qed.

(** X21.  An address registers once: after a registration has succeeded for
    a normalised address, no later registration succeeds for the same
    address. *)
Theorem email_registered_once
    now issuedAt store request e n r c store'
    (requests : list (Z * Z * option Invite.Registration))
    now' issuedAt' request' e' n' r' c' store'' :
  register now issuedAt store request = (Invite.Created e n r c, store') ->
  register now' issuedAt' (later store' requests) request'
  = (Invite.Created e' n' r' c', store'') ->
  (e' =? e)%string = false.
Proof.
  intros H H'. destruct (String.eqb_spec e' e) as [->|]; [exfalso | reflexivity].
  apply register_Created in H
    as (body & code & email & invite & _ & _ & _ & _ & _ & _ & _ & _
        & _ & _ & _ & _ & ->).
  apply register_Created in H'
    as (body' & code' & email' & invite' & _ & _ & _ & _ & _ & _ & _ & _
        & Hnew & _).
  rewrite later_keeps_registered in Hnew; [discriminate|].
  unfold Invite.registered. simpl. now rewrite assign_same.
Qed.

(** ** The accounts *)

Lemma register_keeps_accounts now issuedAt store request :
  Invite.accounts_sound jsLength store ->
  Invite.accounts_sound jsLength (snd (register now issuedAt store request)).
Proof.
  intros [Hsound Hdistinct].
  destruct (register now issuedAt store request) as [[e n r c|codes|status error] store'] eqn:E.
  - apply register_Created in E
      as (body & code & email & invite & _ & _ & _ & Htruthy & Hinv & Hunused & _ & _
          & Hnew & Hlen & Hn & _ & ->).
    assert (Hother : forall e1 u1, e1 <> e ->
              Invite.REGISTERED_USERS store e1 = Some u1 ->
              Invite.inviteCode u1 <> toUpperCase code).
    { intros e1 u1 _ Hu1 Hk. destruct (Hsound e1 u1 Hu1) as (_ & _ & _ & i & Hi & Hused).
      rewrite Hk, Hinv in Hi. injection Hi as <-. congruence. }
    split; simpl.
    + intros e1 u1. destruct (String.eqb_spec e1 e) as [->|Hne].
      * rewrite assign_same. intros Hu. injection Hu as <-. simpl.
        split; [reflexivity|]. split; [|split; [exact Hn|]].
        -- split; [exact Htruthy|]. intros pass. now apply tooShort_Text.
        -- rewrite assign_same. eexists. split; reflexivity.
      * rewrite assign_other by assumption. intros Hu.
        destruct (Hsound e1 u1 Hu) as (Hr & Hp & Hnm & i & Hi & Hused).
        split; [exact Hr|]. split; [exact Hp|]. split; [exact Hnm|].
        rewrite assign_other by (now apply (Hother e1 u1)). eauto.
    + intros e1 e2 u1 u2 Hne.
      destruct (String.eqb_spec e1 e) as [->|Hne1];
        destruct (String.eqb_spec e2 e) as [->|Hne2]; try contradiction;
        rewrite ?assign_same, ?assign_other by assumption; intros Hu1 Hu2.
      * injection Hu1 as <-. simpl. intros Hk. now apply (Hother e2 u2 Hne2 Hu2).
      * injection Hu2 as <-. simpl. now apply (Hother e1 u1 Hne1 Hu1).
      * now apply (Hdistinct e1 e2 u1 u2).
  - now apply register_never_generates in E.
  - apply register_Rejected in E. subst store'. now split.
Qed.

(** X22.  After any series of registrations from the tables as loaded, every
    account has the role user, the name taken from its address and a
    password that is truthy and, when it is a string, has at least 8 units
    (a password that is no string is stored whatever it is, unless it has a
    [length] below 8); its invite code is marked as used, and no two
    accounts share a code. *)
Theorem accounts_burn_invites (requests : list (Z * Z * option Invite.Registration)) :
  Invite.accounts_sound jsLength (later Invite.initial requests).
Proof.
  assert (H : forall store, Invite.accounts_sound jsLength store ->
                            Invite.accounts_sound jsLength (later store requests)).
  { induction requests as [|[[now issuedAt] request] rs IH]; intros store Hs; simpl;
      [exact Hs|]. apply IH. now apply register_keeps_accounts. }
  apply H. split; intros; discriminate.
Qed.

(** ** New codes *)

Lemma min_with_10 (c : float) : (10 <? Js.Math_min [c; 10]) = false.
Proof.
  unfold Js.Math_min. simpl existsb.
  replace (is_nan 10) with false by reflexivity. rewrite orb_false_r.
  destruct (is_nan c) eqn:Hc; [reflexivity|].
  simpl fold_left. rewrite min_step_infinity by assumption.
  unfold Js.min_step.
  replace (Js.is_neg_zero 10) with false by reflexivity. simpl andb.
  destruct (10 <? c) eqn:E; [apply ltb_irrefl | exact E].
Qed.

Lemma issue_returns (fuel i : nat) (limit : float) clock random invites newCodes :
  (i + fuel = 10)%nat -> (10 <? limit) = false ->
  Invite.fresh clock invites newCodes ->
  exists invites' newCodes',
    Invite.issue newCode fuel i limit clock random invites newCodes
    = Some (invites', newCodes') /\
    (List.length newCodes' <= List.length newCodes + fuel)%nat /\
    Invite.fresh clock invites' newCodes'.
Proof.
  revert i invites newCodes. induction fuel as [|fuel IH];
    intros i invites newCodes Hi Hlimit Hfresh; simpl.
  - replace i with 10%nat by lia.
    replace (number_of_nat 10) with 10 by reflexivity. rewrite Hlimit.
    exists invites, newCodes. repeat split; [lia | exact Hfresh].
  - destruct (number_of_nat i <? limit).
    + edestruct (IH (S i)) as (invites' & newCodes' & -> & Hlen & Hfresh');
        [lia | exact Hlimit | | ].
      * intros c Hc. apply in_app_iff in Hc.
        destruct (String.eqb_spec c (newCode (clock (2 * i)%nat) (random i))) as [->|Hne].
        -- rewrite assign_same. eexists. repeat split. eexists. reflexivity.
        -- rewrite assign_other by assumption. apply Hfresh.
           destruct Hc as [Hc|[Hc|[]]]; [exact Hc|].
           exfalso. apply Hne. symmetry. exact Hc.
      * exists invites', newCodes'. repeat split; [|exact Hfresh'].
        rewrite length_app in Hlen. simpl in Hlen. lia.
    + exists invites, newCodes. repeat split; [lia | exact Hfresh].
Qed.

Lemma generate_fresh clock random store count :
  exists newCodes store',
    generate clock random store (Some count) = Some (Invite.Generated newCodes, store') /\
    (List.length newCodes <= 10)%nat /\
    Invite.REGISTERED_USERS store' = Invite.REGISTERED_USERS store /\
    Invite.fresh clock (Invite.VALID_INVITES store') newCodes.
Proof.
  unfold Invite.PUT.
  destruct (issue_returns 10 0 (Js.Math_min [Invite.countOf count; 10]) clock random
              (Invite.VALID_INVITES store) [])
    as (invites' & newCodes' & -> & Hlen & Hfresh);
    [reflexivity | apply min_with_10 | intros c [] |].
  exists newCodes', (Invite.mkStore invites' (Invite.REGISTERED_USERS store)).
  repeat split; [simpl in Hlen; lia | exact Hfresh].
Qed.


(** X24.  A code just generated can be used: within its seven days, with an
    address that is not registered and a password of at least 8 units, the
    registration succeeds (the code being in upper case, as generated). *)
Theorem generated_code_registers
    clock random store count newCodes store' code email pass now issuedAt :
  generate clock random store (Some count) = Some (Invite.Generated newCodes, store') ->
  In code newCodes ->
  toUpperCase code = code ->
  (forall k, (now <= clock k + 7 * 24 * 60 * 60 * 1000)%Z) ->
  code <> ""%string -> email <> ""%string -> pass <> ""%string ->
  Invite.registered inherited store (trim (toLowerCase email)) = false ->
  (8 <= jsLength pass)%nat ->
  fst (register now issuedAt store'
         (Some (Invite.mkRegistration (Invite.Text code) (Invite.Text email)
                  (Invite.Text pass))))
  = Invite.Created (trim (toLowerCase email))
      (Invite.before_at (trim (toLowerCase email))) "user"
      (signJWT (trim (toLowerCase email)) "user"
         (Invite.before_at (trim (toLowerCase email))) issuedAt).
Proof.
  intros Hput Hin Hupper Hclock Hc He Hp Hnew Hlen.
  destruct (generate_fresh clock random store count)
    as (newCodes0 & store0 & Hput0 & _ & Husers & Hfresh).
  rewrite Hput in Hput0. injection Hput0 as <- <-.
  destruct (Hfresh code Hin) as (invite & Hinv & Hunused & _ & k & Hexp).
  rewrite (register_to_password now issuedAt _ code email (Invite.Text pass) invite);
    [reflexivity | exact Hc | exact He | now apply truthy_Text | now rewrite Hupper
    | exact Hunused | rewrite Hexp; apply Hclock | | ].
  - unfold Invite.registered in *. now rewrite Husers.
  - simpl. now apply Nat.ltb_ge.
Qed.

End InviteFacts.

Lemma registration_requirements_witness :
  exists body code email invite,
    Some ann = Some body /\
    (Invite.reg_inviteCode body = Invite.Text code /\ code <> ""%string) /\
    (Invite.reg_email body = Invite.Text email /\ email <> ""%string) /\
    Invite.truthy (Invite.reg_password body) = true /\
    Invite.VALID_INVITES Invite.initial (ascii_upper code) = Some invite /\
    Invite.used invite = false /\
    (1700000000000 <= Invite.expiresAt invite)%Z /\
    "ann@example.com"%string = no_trim (ascii_lower email) /\
    Invite.registered sample_inherited Invite.initial "ann@example.com" = false /\
    (Invite.tooShort String.length (Invite.reg_password body) = false /\
     forall pass, Invite.reg_password body = Invite.Text pass ->
                  (8 <= String.length pass)%nat) /\
    "user"%string = "user"%string /\
    Invite.REGISTERED_USERS after_ann "ann@example.com"
    = Some (Invite.mkUser (Invite.reg_password body) "user"
              (Invite.before_at "ann@example.com") (ascii_upper code)).
Proof.
  apply (registration_requirements ascii_upper ascii_lower no_trim String.length
           sample_inherited sample_sign 1700000000000 1700000000000 Invite.initial
           (Some ann) "ann@example.com" "ann" "user" "ann@example.com:ann" after_ann).
  reflexivity.
Defined.

(** Dan registers with the number 1234 as password. *)
Lemma password_without_length_accepted_witness :
  exists cookie store',
    sample_register 1700000000000 1700000000000 Invite.initial (Some dan)
    = (Invite.Created (no_trim (ascii_lower "dan@example.com"))
         (Invite.before_at (no_trim (ascii_lower "dan@example.com"))) "user" cookie,
       store') /\
    option_map Invite.password
      (Invite.REGISTERED_USERS store' (no_trim (ascii_lower "dan@example.com")))
    = Some (Invite.Other Js.Undefined).
Proof.
  apply (password_without_length_accepted ascii_upper ascii_lower no_trim String.length
           sample_inherited sample_sign 1700000000000 1700000000000 Invite.initial
           "chapmans-beta-001" "dan@example.com"
           (Invite.mkInvite false "warren@chapmans.co.za" 1767139200000)).
  - discriminate.
  - discriminate.
  - reflexivity.
  - reflexivity.
  - vm_compute. discriminate.
  - reflexivity.
Defined.

(** A password that is an array of three entries has a [length] and is
    refused; a code or an address that is no string makes the handler fail
    with status 500.  In each case the tables stay as they were. *)
Example registrations_with_other_values :
  sample_register 1700000000000 1700000000000 Invite.initial
    (Some (Invite.mkRegistration (Invite.Text "chapmans-beta-001")
             (Invite.Text "dan@example.com") (Invite.Other (Js.Num 3))))
  = (Invite.Rejected 400 "Password must be at least 8 characters", Invite.initial) /\
  sample_register 1700000000000 1700000000000 Invite.initial
    (Some (Invite.mkRegistration (Invite.Other Js.Undefined)
             (Invite.Text "dan@example.com") (Invite.Text "correct horse")))
  = (Invite.Rejected 500 "Registration failed", Invite.initial) /\
  sample_register 1700000000000 1700000000000 Invite.initial
    (Some (Invite.mkRegistration (Invite.Text "chapmans-beta-001")
             (Invite.Other Js.Undefined) (Invite.Text "correct horse")))
  = (Invite.Rejected 500 "Registration failed", Invite.initial) /\
  sample_register 1700000000000 1700000000000 Invite.initial
    (Some (Invite.mkRegistration (Invite.Text "no-such-code")
             (Invite.Other Js.Undefined) (Invite.Text "correct horse")))
  = (Invite.Rejected 400 "Invalid invite code", Invite.initial).
Proof. repeat split. Qed.

Lemma rejection_changes_nothing_witness :
  snd (sample_register 1700000000000 1700000000000 Invite.initial
         (Some (Invite.mkRegistration (Invite.Text "NO-SUCH-CODE")
                  (Invite.Text "ann@example.com") (Invite.Text "correct horse"))))
  = Invite.initial.
Proof.
  apply (rejection_changes_nothing ascii_upper ascii_lower no_trim String.length
           sample_inherited sample_sign 1700000000000 1700000000000 Invite.initial
           (Some (Invite.mkRegistration (Invite.Text "NO-SUCH-CODE")
                    (Invite.Text "ann@example.com") (Invite.Text "correct horse")))
           400 "Invalid invite code").
  reflexivity.
Defined.

Lemma invite_single_use_witness :
  sample_register 1700000000005 1700000000005
    (Invite.after ascii_upper ascii_lower no_trim String.length sample_inherited
       sample_sign after_ann [])
    (Some (Invite.mkRegistration (Invite.Text "Oracle-2025-Alpha")
             (Invite.Text "bob@example.com") (Invite.Text "battery staple")))
  = (Invite.Rejected 400 "This invite code has already been used",
     Invite.after ascii_upper ascii_lower no_trim String.length sample_inherited
       sample_sign after_ann []).
Proof.
  apply (invite_single_use ascii_upper ascii_lower no_trim String.length
           sample_inherited sample_sign 1700000000000 1700000000000 Invite.initial
           ann "ann@example.com" "ann" "user" "ann@example.com:ann" after_ann
           "oracle-2025-alpha").
  - reflexivity.
  - reflexivity.
  - reflexivity.
  - discriminate.
  - reflexivity.
  - reflexivity.
Defined.

Lemma email_registered_once_witness :
  ("bob@example.com" =? "ann@example.com")%string = false.
Proof.
  apply (email_registered_once ascii_upper ascii_lower no_trim String.length
           sample_inherited sample_sign 1700000000000 1700000000000 Invite.initial
           (Some ann) "ann@example.com" "ann" "user" "ann@example.com:ann" after_ann
           [] 1700000000005 1700000000005 (Some bob)
           "bob@example.com" "bob" "user" "bob@example.com:bob"
           (snd (sample_register 1700000000005 1700000000005 after_ann (Some bob)))).
  - reflexivity.
  - reflexivity.
Defined.

Lemma generated_code_registers_witness :
  fst (sample_register 1700000000000 1700000000000 after_generation
         (Some (Invite.mkRegistration (Invite.Text "ORACLE-NEW-0001")
                  (Invite.Text "Cy@Example.com") (Invite.Text "correct horse"))))
  = Invite.Created (no_trim (ascii_lower "Cy@Example.com"))
      (Invite.before_at (no_trim (ascii_lower "Cy@Example.com"))) "user"
      (sample_sign (no_trim (ascii_lower "Cy@Example.com")) "user"
         (Invite.before_at (no_trim (ascii_lower "Cy@Example.com"))) 1700000000000).
Proof.
  apply (generated_code_registers ascii_upper ascii_lower no_trim String.length
           sample_inherited sample_sign sample_code sample_clock half Invite.initial
           (Js.Num 1) ["ORACLE-NEW-0001"%string] after_generation).
  - vm_compute. reflexivity.
  - now left.
  - reflexivity.
  - intros k. unfold sample_clock. lia.
  - discriminate.
  - discriminate.
  - discriminate.
  - reflexivity.
  - simpl. lia.
Defined.
